(** * BluePulse: the simulation core of the dashboard

    A shallow embedding of the three pieces of the BluePulse front end
    that carry state-machine or buffer semantics:

    - [Training]: the [MLTraining] class (training-simulation scheduler:
      [startTraining], [pauseTraining], [stopTraining],
      [simulateTrainingEpoch], [completeTraining]);
    - [Ocean]: the [OceanographicModule] class (series buffers,
      [updateCurrentValues], the historical/forecast split of
      [createForecastChart]);
    - [Dashboard]: the [BluePulseApp] class ([loadInitialData],
      [updateDashboardKPIs] and the mock-data fallback).

    JavaScript numbers are idealised as exact rationals ([Q]); binary64
    rounding is not modelled, except for the split point of the forecast
    chart, which is computed both ways.  [Math.random()] is an oracle
    that is part of the browser state. *)

From Stdlib Require Import ZArith QArith Qminmax Qround List Lia Lqa String Bool Arith.
From Stdlib Require Import Floats Sorted.
From Stdlib Require Uint63.
Import ListNotations.
Close Scope Q_scope.

(* ===================================================================== *)
(** * Definitions                                                         *)
(* ===================================================================== *)

Module Training.

Local Open Scope Q_scope.

(** A JavaScript number as the training code can see it: a finite value,
    or [NaN] when an operand was [undefined] (reading the last element of
    an empty array). *)
Inductive num : Type :=
| NaN : num
| Num : Q -> num.

(** [x + q] for a finite [q]. *)
Definition num_add (x : num) (q : Q) : num :=
  match x with
  | NaN => NaN
  | Num b => Num (b + q)
  end.

(** [Math.min(c, x)] for a finite constant [c]: [NaN] is contagious. *)
Definition Math_min (c : Q) (x : num) : num :=
  match x with
  | NaN => NaN
  | Num q => Num (Qmin c q)
  end.

(** [Math.max(c, x)] for a finite constant [c]. *)
Definition Math_max (c : Q) (x : num) : num :=
  match x with
  | NaN => NaN
  | Num q => Num (Qmax c q)
  end.

(** [x <= c] and [c <= x] as JavaScript evaluates them: comparisons with
    [NaN] are false. *)
Definition num_le_const (x : num) (c : Q) : Prop :=
  match x with
  | NaN => False
  | Num q => q <= c
  end.

Definition const_le_num (c : Q) (x : num) : Prop :=
  match x with
  | NaN => False
  | Num q => c <= q
  end.

(** The keys of [this.modelData]. *)
Inductive model : Type := otolith | lstm | edna | nlp.

Definition model_eqb (a b : model) : bool :=
  match a, b with
  | otolith, otolith | lstm, lstm | edna, edna | nlp, nlp => true
  | _, _ => false
  end.

(** The two arrays of a [modelData] entry that the simulation reads and
    extends.  ([name], [type], [dataset_size] and [status] are never
    touched by the scheduler.) *)
Record ModelData : Type := mkModelData {
  accuracy : list num;
  loss : list num
}.

(** Arguments of [addTrainingLog]; the message is kept structured instead
    of formatted with [toFixed]. *)
Inductive logEntry : Type :=
| LogStarting (m : model)
| LogPaused
| LogStopped
| LogEpoch (epoch total : Z) (newLoss newAccuracy : num)
| LogCompleted (finalAccuracy : num).

(** An [MLTraining] instance together with the part of the browser it acts
    on: the live [setInterval] handles, the handle counter, the number of
    [Math.random()] calls made so far and the oracle answering them, the
    [#training-logs] container (newest first) and the [showAlert] calls. *)
Record State : Type := mkState {
  currentModel : model;
  isTraining : bool;
  trainingInterval : option nat;
  currentEpoch : Z;
  totalEpochs : Z;
  modelData : model -> ModelData;
  timers : list nat;
  nextTimer : nat;
  random : nat -> Q;
  draws : nat;
  logs : list logEntry;
  alerts : list (string * string)
}.

Definition set_currentModel (m : model) (s : State) : State :=
  mkState m (isTraining s) (trainingInterval s) (currentEpoch s)
          (totalEpochs s) (modelData s) (timers s) (nextTimer s)
          (random s) (draws s) (logs s) (alerts s).

Definition set_isTraining (b : bool) (s : State) : State :=
  mkState (currentModel s) b (trainingInterval s) (currentEpoch s)
          (totalEpochs s) (modelData s) (timers s) (nextTimer s)
          (random s) (draws s) (logs s) (alerts s).

Definition set_trainingInterval (t : option nat) (s : State) : State :=
  mkState (currentModel s) (isTraining s) t (currentEpoch s)
          (totalEpochs s) (modelData s) (timers s) (nextTimer s)
          (random s) (draws s) (logs s) (alerts s).

Definition set_currentEpoch (e : Z) (s : State) : State :=
  mkState (currentModel s) (isTraining s) (trainingInterval s) e
          (totalEpochs s) (modelData s) (timers s) (nextTimer s)
          (random s) (draws s) (logs s) (alerts s).

Definition set_modelData (d : model -> ModelData) (s : State) : State :=
  mkState (currentModel s) (isTraining s) (trainingInterval s)
          (currentEpoch s) (totalEpochs s) d (timers s) (nextTimer s)
          (random s) (draws s) (logs s) (alerts s).

Definition set_timers (ts : list nat) (n : nat) (s : State) : State :=
  mkState (currentModel s) (isTraining s) (trainingInterval s)
          (currentEpoch s) (totalEpochs s) (modelData s) ts n
          (random s) (draws s) (logs s) (alerts s).

Definition set_draws (n : nat) (s : State) : State :=
  mkState (currentModel s) (isTraining s) (trainingInterval s)
          (currentEpoch s) (totalEpochs s) (modelData s) (timers s)
          (nextTimer s) (random s) n (logs s) (alerts s).

Definition set_logs (l : list logEntry) (s : State) : State :=
  mkState (currentModel s) (isTraining s) (trainingInterval s)
          (currentEpoch s) (totalEpochs s) (modelData s) (timers s)
          (nextTimer s) (random s) (draws s) l (alerts s).

Definition set_alerts (a : list (string * string)) (s : State) : State :=
  mkState (currentModel s) (isTraining s) (trainingInterval s)
          (currentEpoch s) (totalEpochs s) (modelData s) (timers s)
          (nextTimer s) (random s) (draws s) (logs s) a.

(** ** Browser primitives *)

(** [Math.random()]: the next answer of the oracle. *)
Definition Math_random (s : State) : Q * State :=
  (random s (draws s), set_draws (S (draws s)) s).

(** [setInterval(cb, 1000)]: a fresh handle joins the live timers.  The
    only callback this class ever registers is [simulateTrainingEpoch]. *)
Definition setInterval (s : State) : nat * State :=
  (nextTimer s, set_timers (timers s ++ [nextTimer s]) (S (nextTimer s)) s).

(** [clearInterval(h)]. *)
Definition clearInterval (h : nat) (s : State) : State :=
  set_timers (filter (fun t => negb (Nat.eqb t h)) (timers s)) (nextTimer s) s.

(** [addTrainingLog(message)], the container being in the page: insert
    at the top, keep the 20 newest. *)
Definition addTrainingLog (e : logEntry) (s : State) : State :=
  set_logs (firstn 20 (e :: logs s)) s.

(** [window.bluePulseApp.showAlert(message, type)]. *)
Definition showAlert (message type : string) (s : State) : State :=
  set_alerts (alerts s ++ [(message, type)]) s.

Definition completedAlert : string * string :=
  ("Model training completed successfully!"%string, "success"%string).

(** ** The methods of [MLTraining] *)

(** The shared tail of [pauseTraining], [stopTraining] and
    [completeTraining]:
    [if (this.trainingInterval) { clearInterval(...); ... = null; }].
    The test is JavaScript truthiness: [null] and the handle [0] are
    falsy.  (Browsers hand out positive handles; [init] starts at 1.) *)
Definition clearTrainingInterval (s : State) : State :=
  match trainingInterval s with
  | Some h =>
      if Nat.eqb h 0 then s
      else set_trainingInterval None (clearInterval h s)
  | None => s
  end.

Definition startTraining (s : State) : State :=
  if isTraining s then s
  else
    let s := set_isTraining true s in
    let s := set_currentEpoch 0%Z s in
    let s := addTrainingLog (LogStarting (currentModel s)) s in
    let (h, s) := setInterval s in
    set_trainingInterval (Some h) s.

Definition pauseTraining (s : State) : State :=
  if negb (isTraining s) then s
  else
    let s := clearTrainingInterval s in
    addTrainingLog LogPaused s.

Definition stopTraining (s : State) : State :=
  let s := set_isTraining false s in
  let s := clearTrainingInterval s in
  addTrainingLog LogStopped s.

Definition completeTraining (s : State) : State :=
  let s := set_isTraining false s in
  let s := clearTrainingInterval s in
  let finalAccuracy := last (accuracy (modelData s (currentModel s))) NaN in
  let s := addTrainingLog (LogCompleted finalAccuracy) s in
  showAlert (fst completedAlert) (snd completedAlert) s.

(** [modelData.accuracy.push(a); modelData.loss.push(l)] on the entry of
    the current model. *)
Definition pushMetrics (a l : num) (s : State) : State :=
  let cur := currentModel s in
  let md := modelData s cur in
  let md' := mkModelData (accuracy md ++ [a]) (loss md ++ [l]) in
  set_modelData (fun m => if model_eqb m cur then md' else modelData s m) s.

(** The two [const] declarations of [simulateTrainingEpoch], as functions
    of the base value and of the [Math.random()] answer. *)
Definition newAccuracyOf (baseAccuracy : num) (r : Q) : num :=
  Math_min 0.98 (num_add baseAccuracy ((r - 0.3) * 0.01)).

Definition newLossOf (baseLoss : num) (r : Q) : num :=
  Math_max 0.1 (num_add baseLoss ((r - 0.7) * 0.05)).

(** [modelData.accuracy[modelData.accuracy.length - 1]] and its sibling
    for the current model; [undefined] turns into [NaN] in the sum. *)
Definition baseAccuracyOf (s : State) : num :=
  last (accuracy (modelData s (currentModel s))) NaN.

Definition baseLossOf (s : State) : num :=
  last (loss (modelData s (currentModel s))) NaN.

Definition simulateTrainingEpoch (s : State) : State :=
  let s := set_currentEpoch (currentEpoch s + 1)%Z s in
  let baseAccuracy := baseAccuracyOf s in
  let baseLoss := baseLossOf s in
  let (r1, s) := Math_random s in
  let newAccuracy := newAccuracyOf baseAccuracy r1 in
  let (r2, s) := Math_random s in
  let newLoss := newLossOf baseLoss r2 in
  let s := pushMetrics newAccuracy newLoss s in
  let s :=
    if (Z.rem (currentEpoch s) 10 =? 0)%Z
    then addTrainingLog
           (LogEpoch (currentEpoch s) (totalEpochs s) newLoss newAccuracy) s
    else s in
  if (currentEpoch s >=? totalEpochs s)%Z then completeTraining s else s.

(** ** The scheduler seen from outside *)

(** One period of the timer elapses: every handle that was live at the
    start of the period, and is still live when its turn comes, runs its
    callback once. *)
Definition fire (s : State) (h : nat) : State :=
  if existsb (Nat.eqb h) (timers s) then simulateTrainingEpoch s else s.

Definition tick (s : State) : State :=
  fold_left fire (timers s) s.

Definition ticks (n : nat) (s : State) : State :=
  Nat.iter n tick s.

(** What can happen to an instance: a click on one of the three
    training buttons, a period of the timer, or a click on a model card
    ([this.currentModel = card.dataset.model], then a redraw).  The
    [#epochs] input is left at its default. *)
Inductive event : Type :=
| EStart
| EPause
| EStop
| ETick
| ESelect (m : model).

Definition step (s : State) (e : event) : State :=
  match e with
  | EStart => startTraining s
  | EPause => pauseTraining s
  | EStop => stopTraining s
  | ETick => tick s
  | ESelect m => set_currentModel m s
  end.

Definition run (evs : list event) (s : State) : State :=
  fold_left step evs s.

(** The seed arrays of the constructor. *)
Definition seed (m : model) : ModelData :=
  match m with
  | otolith =>
      mkModelData
        (map Num [0.2; 0.4; 0.6; 0.75; 0.82; 0.88; 0.91; 0.942])
        (map Num [2.1; 1.8; 1.4; 1.1; 0.8; 0.6; 0.4; 0.32])
  | lstm =>
      mkModelData
        (map Num [0.3; 0.5; 0.65; 0.75; 0.82; 0.86; 0.89; 0.913])
        (map Num [1.9; 1.5; 1.2; 0.9; 0.7; 0.5; 0.4; 0.35])
  | edna =>
      mkModelData
        (map Num [0.4; 0.6; 0.75; 0.83; 0.89; 0.92; 0.95; 0.961])
        (map Num [1.6; 1.2; 0.9; 0.7; 0.5; 0.4; 0.3; 0.25])
  | nlp =>
      mkModelData
        (map Num [0.4; 0.55; 0.68; 0.75; 0.81; 0.85; 0.88; 0.89])
        (map Num [1.8; 1.4; 1.1; 0.9; 0.7; 0.6; 0.5; 0.45])
  end.

(** The state right after [new MLTraining()], in a browser whose random
    oracle is [rnd].  (The four lines of [initTrainingLogs] arrive later,
    from timeouts, and are left out.) *)
Definition init (rnd : nat -> Q) : State :=
  mkState otolith false None 0%Z 100%Z seed [] 1%nat rnd 0%nat [] [].

Definition reachable (s : State) : Prop :=
  exists rnd evs, s = run evs (init rnd).

(** Number of times the terminal callback of [completeTraining] fired. *)
Definition is_completed (a : string * string) : bool :=
  (String.eqb (fst a) (fst completedAlert) && String.eqb (snd a) (snd completedAlert))%bool.

Definition completions (s : State) : nat :=
  List.length (filter is_completed (alerts s)).

(** The entries appended after the first [n] of an array. *)
Definition appended {A : Type} (n : nat) (l : list A) : list A := skipn n l.

(** The fields that make up the scheduler proper. *)
Definition scheduler (s : State)
  : bool * option nat * Z * Z * list nat * nat :=
  (isTraining s, trainingInterval s, currentEpoch s, totalEpochs s,
   timers s, nextTimer s).

(** The next period of the timer delivers an epoch. *)
Definition delivers (s : State) : Prop :=
  currentEpoch (tick s) = (currentEpoch s + 1)%Z.

(** The timer table and the object agree: the only live handle is the one
    stored in [trainingInterval], handles are positive, and an instance
    that is not training holds no handle. *)
Definition Inv (s : State) : Prop :=
  timers s = match trainingInterval s with Some h => [h] | None => [] end
  /\ (forall h, trainingInterval s = Some h -> h <> 0%nat)
  /\ (isTraining s = false -> trainingInterval s = None)
  /\ nextTimer s <> 0%nat.

(** Every array still starts with its seed, and what was appended to it
    is clamped. *)
Definition MetricsInv (s : State) : Prop :=
  forall m,
    (exists accs, accuracy (modelData s m) = accuracy (seed m) ++ accs
                  /\ Forall (fun a => num_le_const a 0.98) accs)
    /\ (exists ls, loss (modelData s m) = loss (seed m) ++ ls
                   /\ Forall (fun l => const_le_num 0.1 l) ls).

(** A constant oracle, for concrete runs. *)
Definition rnd_const (q : Q) : nat -> Q := fun _ => q.

(** A fresh instance, started, after its first epoch. *)
Definition after_one_epoch : State :=
  run [EStart; ETick] (init (rnd_const 0.5)).

End Training.

Module Ocean.

Local Open Scope Q_scope.

(** One element of a [historicalData] array. *)
Record Sample : Type := mkSample {
  timestamp : Z;
  value : Q;
  predicted : Q
}.

(** [this.historicalData]: an object whose keys are the parameter names,
    in insertion order (the order [Object.keys] enumerates them). *)
Definition Store : Type := list (string * list Sample).

(** The keys [loadHistoricalData] creates, in order. *)
Definition parameters : list string :=
  ["temperature"; "salinity"; "chlorophyll"; "ph"; "oxygen"]%string.

(** The number of samples [loadHistoricalData] generates per parameter. *)
Definition hours (forecastRange : string) : nat :=
  if String.eqb forecastRange "24h" then 24
  else if String.eqb forecastRange "7d" then 168
  else 720.

(** ** The live update *)

(** The step of the random walk and the length beyond which the oldest
    point is dropped, as written in [updateCurrentValues]. *)
Definition liveNoiseAmplitude : Q := 0.2.
Definition predictedNoiseAmplitude : Q := 0.1.
Definition retentionCap : nat := 1000.

(** [data[data.length - 1]]: [None] is [undefined]. *)
Definition latest (data : list Sample) : option Sample :=
  nth_error data (List.length data - 1).

(** [data.push(s); if (data.length > cap) data.shift();] *)
Definition appendCapped (cap : nat) (data : list Sample) (s : Sample)
  : list Sample :=
  let data := data ++ [s] in
  if Nat.ltb cap (List.length data) then tl data else data.

(** The body of the [forEach] callback of [updateCurrentValues] for one
    array, with the two [Math.random()] answers [r1] (for [newValue]) and
    [r2] (for [predicted]).  [None]: reading [.value] of [undefined]
    throws a [TypeError]. *)
Definition updateParam (now : Z) (r1 r2 : Q) (data : list Sample)
  : option (list Sample) :=
  match latest data with
  | None => None
  | Some l =>
      let lastValue := value l in
      let newValue := lastValue + (r1 - 0.5) * liveNoiseAmplitude in
      let s := mkSample now newValue
                 (newValue + (r2 - 0.5) * predictedNoiseAmplitude) in
      Some (appendCapped retentionCap data s)
  end.

(** The result of a method that may throw: the store as mutated so far
    and the number of random draws consumed. *)
Inductive result : Type :=
| Done (hd : Store) (draws : nat)
| TypeError (hd : Store) (draws : nat).

(** [Object.keys(this.historicalData).forEach(...)] of
    [updateCurrentValues]: every array in key order, two draws each,
    all with the same [now]. *)
Fixpoint updateCurrentValues (now : Z) (rnd : nat -> Q) (d : nat)
  (hd : Store) : result :=
  match hd with
  | [] => Done [] d
  | (k, data) :: rest =>
      match updateParam now (rnd d) (rnd (S d)) data with
      | None => TypeError hd d
      | Some data' =>
          match updateCurrentValues now rnd (S (S d)) rest with
          | Done rest' d' => Done ((k, data') :: rest') d'
          | TypeError rest' d' => TypeError ((k, data') :: rest') d'
          end
      end
  end.

(** ** The historical / forecast split *)

(** The clamping of a relative index by [Array.prototype.slice]. *)
Definition relativeIndex (len i : Z) : Z :=
  if (i <? 0)%Z then Z.max (len + i) 0 else Z.min i len.

(** [l.slice(start, end)]; [end_ = None] is the one-argument form. *)
Definition slice {A : Type} (l : list A) (start : Z) (end_ : option Z)
  : list A :=
  let len := Z.of_nat (List.length l) in
  let k := relativeIndex len start in
  let final := match end_ with
               | None => len
               | Some e => relativeIndex len e
               end in
  firstn (Z.to_nat (final - k)) (skipn (Z.to_nat k) l).

(** The two [slice] calls of [createForecastChart] for a given split
    point: [data.slice(0, splitPoint)] and [data.slice(splitPoint - 1)],
    "Overlap by 1 point". *)
Definition historicalAt (splitPoint : Z) (data : list Sample) : list Sample :=
  slice data 0 (Some splitPoint).

Definition forecastAt (splitPoint : Z) (data : list Sample) : list Sample :=
  slice data (splitPoint - 1) None.

(** [Math.floor(data.length * 0.7)] in exact arithmetic. *)
Definition splitPoint (data : list Sample) : Z :=
  Qfloor (inject_Z (Z.of_nat (List.length data)) * 0.7).

Definition historical (data : list Sample) : list Sample :=
  historicalAt (splitPoint data) data.

Definition forecast (data : list Sample) : list Sample :=
  forecastAt (splitPoint data) data.

(** The same in binary64, as the engine computes it.  [Math.floor] of a
    double, from its sign, mantissa and exponent; zero gives 0, and the
    last case (infinities, NaN) does not arise: the product of an array
    length and 0.7 is finite. *)
Definition Math_floor (x : float) : Z :=
  match Prim2SF x with
  | S754_finite false m (Zneg p) => Z.shiftr (Zpos m) (Zpos p)
  | S754_finite false m e => Z.shiftl (Zpos m) e
  | S754_finite true m (Zneg p) =>
      (- ((Zpos m + 2 ^ Zpos p - 1) / 2 ^ Zpos p))%Z
  | S754_finite true m e => (- Z.shiftl (Zpos m) e)%Z
  | _ => 0%Z
  end.

(** The double written [0.7]. *)
Definition ratio64 : float := 0x1.6666666666666p-1%float.

Definition split64 (n : nat) : Z :=
  Math_floor (PrimFloat.mul (PrimFloat.of_uint63 (Uint63.of_Z (Z.of_nat n)))
                            ratio64).

Definition splitPoint64 (data : list Sample) : Z :=
  split64 (List.length data).

Definition historical64 (data : list Sample) : list Sample :=
  historicalAt (splitPoint64 data) data.

Definition forecast64 (data : list Sample) : list Sample :=
  forecastAt (splitPoint64 data) data.

(** Two parts of a snapshot overlap in exactly one sample: the first
    ends with the sample the second begins with, and they share no other
    position. *)
Definition overlapByOne (data h f : list Sample) : Prop :=
  exists pre s post,
    data = pre ++ s :: post /\ h = pre ++ [s] /\ f = s :: post.

(** The last [n] elements of a list. *)
Definition lastn {A : Type} (n : nat) (l : list A) : list A :=
  skipn (List.length l - n) l.

(** Appending a sequence of samples, oldest first. *)
Definition appendAll (cap : nat) (data : list Sample) (ss : list Sample)
  : list Sample :=
  fold_left (appendCapped cap) ss data.

(** Sample values for concrete runs. *)
Definition sampleAt (i : Z) : Sample :=
  mkSample i (inject_Z i) (inject_Z i + 0.5).

Definition ramp (n : nat) : list Sample :=
  map (fun i => sampleAt (Z.of_nat i)) (seq 0 n).

(** A store with the five keys, three samples each. *)
Definition smallStore : Store :=
  map (fun k => (k, ramp 3)) parameters.

(** The answers [Math.random()] can give. *)
Definition unitInterval (rnd : nat -> Q) : Prop :=
  forall n, 0 <= rnd n /\ rnd n < 1.

End Ocean.

Module Dashboard.

(** The payload of [GET /dashboard/stats]. *)
Record Stats : Type := mkStats {
  totalSpecies : Z;
  aiModels : Z;
  monitoringStations : Z;
  predictionsToday : Z
}.

(** What [await response.json()] does: rejects, resolves to [null] (so
    that [data.totalSpecies] throws), or resolves to an object. *)
Inductive jsonBody : Type :=
| JsonRejects
| JsonNull
| JsonStats (data : Stats).

(** What [await fetch(...)] does: rejects (server unreachable), or
    resolves to a response with its [ok] flag. *)
Inductive fetchOutcome : Type :=
| FetchRejects
| FetchResponse (ok : bool) (body : jsonBody).

Inductive exn : Type := NetworkError | SyntaxError | DomTypeError | DataTypeError.

Inductive consoleEntry : Type :=
| Warn (msg : string)
| Error (msg : string) (e : exn).

(** The part of the page the loader acts on: the ids present in the
    document, the [display] style of [#loading-overlay], the
    [animateValue(element, 0, end, 2000)] calls made, and the console. *)
Record Page : Type := mkPage {
  elements : list string;
  overlayDisplay : string;
  animations : list (string * Z);
  console : list consoleEntry
}.

(** A computation on the page that returns or throws; effects made
    before a throw stay. *)
Inductive outcome (A : Type) : Type :=
| Ok (a : A) (p : Page)
| Throw (e : exn) (p : Page).

Arguments Ok {A} a p.
Arguments Throw {A} e p.

Definition M (A : Type) : Type := Page -> outcome A.

Definition ret {A : Type} (a : A) : M A := fun p => Ok a p.

Definition throw {A : Type} (e : exn) : M A := fun p => Throw e p.

Definition bind {A B : Type} (m : M A) (k : A -> M B) : M B :=
  fun p =>
    match m p with
    | Ok a p' => k a p'
    | Throw e p' => Throw e p'
    end.

Definition try_catch {A : Type} (m : M A) (handler : exn -> M A) : M A :=
  fun p =>
    match m p with
    | Ok a p' => Ok a p'
    | Throw e p' => handler e p'
    end.

Notation "m ;; k" := (bind m (fun _ => k))
  (at level 61, right associativity).

(** [document.getElementById(id)] is non-null. *)
Definition present (id : string) (p : Page) : bool :=
  existsb (String.eqb id) (elements p).

Definition setOverlay (d : string) : M unit :=
  fun p =>
    if present "loading-overlay" p
    then Ok tt (mkPage (elements p) d (animations p) (console p))
    else Throw DomTypeError p.

Definition showLoading : M unit := setOverlay "flex".
Definition hideLoading : M unit := setOverlay "none".

Definition log (c : consoleEntry) : M unit :=
  fun p => Ok tt (mkPage (elements p) (overlayDisplay p) (animations p)
                         (console p ++ [c])).

Definition animateValue (id : string) (end_ : Z) : M unit :=
  fun p => Ok tt (mkPage (elements p) (overlayDisplay p)
                         (animations p ++ [(id, end_)]) (console p)).

(** The [elements] table of [updateKPIsWithData]. *)
Definition kpiEntries (data : Stats) : list (string * Z) :=
  [("total-species"%string, totalSpecies data);
   ("ai-models"%string, aiModels data);
   ("monitoring-stations"%string, monitoringStations data);
   ("predictions-today"%string, predictionsToday data)].

Fixpoint forEachEntry (es : list (string * Z)) : M unit :=
  match es with
  | [] => ret tt
  | (id, v) :: rest =>
      (fun p => if present id p then animateValue id v p else ret tt p) ;;
      forEachEntry rest
  end.

Definition updateKPIsWithData (data : Stats) : M unit :=
  forEachEntry (kpiEntries data).

Definition mockData : Stats := mkStats 5247 8 15 1847.

Definition updateKPIsWithMockData : M unit :=
  updateKPIsWithData mockData.

Definition updateDashboardKPIs (f : fetchOutcome) : M unit :=
  try_catch
    (match f with
     | FetchRejects => throw NetworkError
     | FetchResponse ok body =>
         if negb ok then updateKPIsWithMockData
         else
           match body with
           | JsonRejects => throw SyntaxError
           | JsonNull => throw DataTypeError
           | JsonStats data => updateKPIsWithData data
           end
     end)
    (fun _ =>
       log (Warn "API not available, using mock data") ;;
       updateKPIsWithMockData).

Definition loadInitialData (f : fetchOutcome) : M unit :=
  try_catch
    (showLoading ;; updateDashboardKPIs f ;; hideLoading)
    (fun e =>
       log (Error "Failed to load initial data:" e) ;;
       hideLoading).

(** The fetch failed: the server was unreachable, or answered with a
    status outside 200..299. *)
Definition fetchFailed (f : fetchOutcome) : Prop :=
  f = FetchRejects \/ exists body, f = FetchResponse false body.

(** The KPI animations a payload produces on a page. *)
Definition kpiAnimations (data : Stats) (p : Page) : list (string * Z) :=
  filter (fun e => present (fst e) p) (kpiEntries data).

(** A page with every element the loader looks up. *)
Definition indexPage : Page :=
  mkPage ["loading-overlay"; "total-species"; "ai-models";
          "monitoring-stations"; "predictions-today"]%string
         "none" [] [].

End Dashboard.

Module TrainingMore.

Import Training.

(** A training is on but its interval has been cleared by
    [pauseTraining]. *)
Definition paused (s : State) : Prop :=
  isTraining s = true /\ trainingInterval s = None.

(** [new] is [old] with entries added at the end. *)
Definition extends {A : Type} (old new : list A) : Prop :=
  exists ext, new = old ++ ext.

(** A fresh instance, started, paused after its first epoch. *)
Definition paused_example : State :=
  run [EStart; ETick; EPause] (init (rnd_const 0.5)).

End TrainingMore.

Module DashboardMore.

Import Dashboard.

(** The payload [updateDashboardKPIs] ends up displaying: the server's,
    when the response is OK and its body is a usable object; the mock
    tuple in every other case. *)
Definition effectiveData (f : fetchOutcome) : Stats :=
  match f with
  | FetchResponse true (JsonStats data) => data
  | _ => mockData
  end.

(** What the [catch] of [updateDashboardKPIs] writes to the console: it
    is entered when [fetch] rejects and when an OK response has no usable
    body, not when the response is simply not OK. *)
Definition warnings (f : fetchOutcome) : list consoleEntry :=
  match f with
  | FetchRejects
  | FetchResponse true JsonRejects
  | FetchResponse true JsonNull =>
      [Warn "API not available, using mock data"]
  | _ => []
  end.

(** A page without the loading overlay. *)
Definition bareKpiPage : Page :=
  mkPage ["total-species"; "predictions-today"]%string "none" [] [].

End DashboardMore.

Module Animation.

Local Open Scope Q_scope.

(** [easeOutCubic(t)]: [1 - Math.pow(1 - t, 3)]. *)
Definition easeOutCubic (t : Q) : Q := 1 - (1 - t) ^ 3.

(** One run of the [updateValue] closure of [animateValue], [elapsed]
    being [currentTime - startTime]. *)
Definition progressOf (duration elapsed : Q) : Q :=
  Qmin (elapsed / duration) 1.

(** The figure written to the element (before [toLocaleString]). *)
Definition currentValue (start end_ : Z) (duration elapsed : Q) : Z :=
  let diff := inject_Z (end_ - start) in
  Qfloor (inject_Z start
          + diff * easeOutCubic (progressOf duration elapsed)).


End Animation.

Module Utils.

(** ** [utils.debounce(func, wait)] *)

(** The closure returned by [debounce] and the timeouts it has scheduled:
    the variable [timeout] ([None]: [undefined]), the pending timeouts
    with the arguments their [later] captured, the handle counter, and
    the arguments of the calls made to [func] so far. *)
Record Debounced (A : Type) : Type := mkDebounced {
  timeout : option nat;
  pending : list (nat * A);
  nextHandle : nat;
  invoked : list A
}.

Arguments mkDebounced {A} _ _ _ _.
Arguments timeout {A} _.
Arguments pending {A} _.
Arguments nextHandle {A} _.
Arguments invoked {A} _.

Definition debounce {A : Type} : Debounced A := mkDebounced None [] 1 [].

(** [clearTimeout(t)]; clearing [undefined] does nothing. *)
Definition clearTimeout {A : Type} (t : option nat) (p : list (nat * A))
  : list (nat * A) :=
  match t with
  | None => p
  | Some h => filter (fun e => negb (Nat.eqb (fst e) h)) p
  end.

(** A call of the debounced function:
    [clearTimeout(timeout); timeout = setTimeout(later, wait);]. *)
Definition executedFunction {A : Type} (args : A) (d : Debounced A)
  : Debounced A :=
  let p := clearTimeout (timeout d) (pending d) in
  let h := nextHandle d in
  mkDebounced (Some h) (p ++ [(h, args)]) (S h) (invoked d).

(** The timeout with handle [h] comes due.  A timeout that is no longer
    pending does not run; otherwise the browser retires it and runs its
    [later]: [clearTimeout(timeout); func(...args);]. *)
Definition later {A : Type} (h : nat) (d : Debounced A) : Debounced A :=
  match find (fun e => Nat.eqb (fst e) h) (pending d) with
  | None => d
  | Some (_, args) =>
      let p := filter (fun e => negb (Nat.eqb (fst e) h)) (pending d) in
      let p := clearTimeout (timeout d) p in
      mkDebounced (timeout d) p (nextHandle d) (invoked d ++ [args])
  end.

Inductive debounceEvent (A : Type) : Type :=
| DCall (args : A)
| DTimeout (h : nat).

Arguments DCall {A} args.
Arguments DTimeout {A} h.

Definition debounceStep {A : Type} (d : Debounced A) (e : debounceEvent A)
  : Debounced A :=
  match e with
  | DCall args => executedFunction args d
  | DTimeout h => later h d
  end.

Definition debounceRun {A : Type} (evs : list (debounceEvent A))
  (d : Debounced A) : Debounced A :=
  fold_left debounceStep evs d.

(** ** [utils.throttle(func, limit)] *)

(** How a call of the wrapped function ends. *)
Inductive ending : Type := Returns | Throws.

(** The closure returned by [throttle]: the flag [inThrottle]
    ([undefined] counts as false), the number of pending
    [() => inThrottle = false] timeouts, and the calls made to [func],
    each with the way it ended. *)
Record Throttled (A : Type) : Type := mkThrottled {
  inThrottle : bool;
  resets : nat;
  applied : list (A * ending)
}.

Arguments mkThrottled {A} _ _ _.
Arguments inThrottle {A} _.
Arguments resets {A} _.
Arguments applied {A} _.

Definition throttle {A : Type} : Throttled A := mkThrottled false 0 [].

(** The way a call of the throttled function ends, with the closure as
    the call leaves it. *)
Inductive completion (S : Type) : Type :=
| Normal (s : S)
| Abrupt (s : S).

Arguments Normal {S} s.
Arguments Abrupt {S} s.

Definition stateOf {S : Type} (c : completion S) : S :=
  match c with
  | Normal s => s
  | Abrupt s => s
  end.

(** A call of the throttled function, [o] being the way [func] ends if
    it is called:
    [if (!inThrottle) { func.apply(context, args); inThrottle = true;
                        setTimeout(() => inThrottle = false, limit); }].
    When [func] throws, the exception leaves the function before the flag
    is set and before the timeout is scheduled. *)
Definition throttled {A : Type} (args : A) (o : ending) (t : Throttled A)
  : completion (Throttled A) :=
  if inThrottle t then Normal t
  else
    let t := mkThrottled (inThrottle t) (resets t) (applied t ++ [(args, o)]) in
    match o with
    | Throws => Abrupt t
    | Returns => Normal (mkThrottled true (S (resets t)) (applied t))
    end.

(** One of the pending timeouts comes due: [inThrottle = false]. *)
Definition release {A : Type} (t : Throttled A) : Throttled A :=
  match resets t with
  | O => t
  | S n => mkThrottled false n (applied t)
  end.

(** What can happen to the closure: a call from an event handler (an
    exception it lets out ends the handler, the closure stays), or a
    timeout coming due. *)
Inductive throttleEvent (A : Type) : Type :=
| TCall (args : A) (o : ending)
| TTimeout.

Arguments TCall {A} args o.
Arguments TTimeout {A}.

Definition throttleStep {A : Type} (t : Throttled A) (e : throttleEvent A)
  : Throttled A :=
  match e with
  | TCall args o => stateOf (throttled args o t)
  | TTimeout => release t
  end.

Definition throttleRun {A : Type} (evs : list (throttleEvent A))
  (t : Throttled A) : Throttled A :=
  fold_left throttleStep evs t.

(** A burst of calls, each with the way its [func] would end. *)
Definition callsOf {A : Type} (cs : list (A * ending))
  : list (throttleEvent A) :=
  map (fun c => TCall (fst c) (snd c)) cs.

Definition throwing {A : Type} (xs : list A) : list (A * ending) :=
  map (fun x => (x, Throws)) xs.

Definition returned {A : Type} (c : A * ending) : bool :=
  match snd c with
  | Returns => true
  | Throws => false
  end.

(** The number of timeouts that came due in a list of events, and the
    number of calls in it whose [func] would throw. *)
Definition timeoutsOf {A : Type} (evs : list (throttleEvent A)) : nat :=
  List.length
    (filter (fun e => match e with TCall _ _ => false | TTimeout => true end)
            evs).

Definition throwsOf {A : Type} (evs : list (throttleEvent A)) : nat :=
  List.length
    (filter (fun e => match e with TCall _ Throws => true | _ => false end)
            evs).

Definition debounceReachable {A : Type} (d : Debounced A) : Prop :=
  exists evs, d = debounceRun evs debounce.

Definition throttleReachable {A : Type} (t : Throttled A) : Prop :=
  exists evs, t = throttleRun evs throttle.

(** At most one timeout is pending, and it is the one [timeout] names. *)
Definition debounceInv {A : Type} (d : Debounced A) : Prop :=
  pending d = []
  \/ exists h a, pending d = [(h, a)] /\ timeout d = Some h.

(** A reset is pending exactly while the flag is set. *)
Definition throttleInv {A : Type} (t : Throttled A) : Prop :=
  resets t = if inThrottle t then 1 else 0.

End Utils.

Module OceanMore.

Import Ocean.

Local Open Scope Q_scope.

(** ** Generating the history *)

(** The two members of [Math] that [loadHistoricalData] uses, as the
    engine provides them (their results are doubles, hence rationals). *)
Record Engine : Type := mkEngine {
  Math_PI : Q;
  Math_sin : Q -> Q
}.

(** [new Date(now - (hours - i) * 60 * 60 * 1000)], in milliseconds. *)
Definition timestampOf (now : Z) (hours i : nat) : Z :=
  (now - (Z.of_nat hours - Z.of_nat i) * 60 * 60 * 1000)%Z.

(** [Math.sin(i * 2 * Math.PI / period)]. *)
Definition wave (E : Engine) (i : nat) (period : Q) : Q :=
  Math_sin E (inject_Z (Z.of_nat i) * 2 * Math_PI E / period).

Definition temperatureSample (E : Engine) (timestamp : Z) (i : nat) (r : Q)
  : Sample :=
  let tempBase := 28.5 in
  let dailyVar := wave E i 24 * 1.5 in
  let seasonalVar := wave E i (24 * 365) * 2 in
  let noise := (r - 0.5) * 0.8 in
  mkSample timestamp
    (tempBase + dailyVar + seasonalVar + noise)
    (tempBase + dailyVar + seasonalVar + noise * 0.3).

Definition salinitySample (E : Engine) (timestamp : Z) (i : nat) (r1 r2 : Q)
  : Sample :=
  let salBase := 34.2 in
  let salVar := wave E i (24 * 7) * 0.5 in
  mkSample timestamp
    (salBase + salVar + (r1 - 0.5) * 0.3)
    (salBase + salVar + (r2 - 0.5) * 0.1).

Definition chlorophyllSample (E : Engine) (timestamp : Z) (i : nat)
  (r1 r2 : Q) : Sample :=
  let chlBase := 2.1 in
  let chlVar := wave E i (24 * 30) * 1.2 in
  mkSample timestamp
    (Qmax 0.1 (chlBase + chlVar + (r1 - 0.5) * 0.8))
    (Qmax 0.1 (chlBase + chlVar + (r2 - 0.5) * 0.4)).

Definition phSample (E : Engine) (timestamp : Z) (i : nat) (r1 r2 : Q)
  : Sample :=
  let phBase := 8.1 in
  let phVar := wave E i (24 * 14) * 0.15 in
  mkSample timestamp
    (phBase + phVar + (r1 - 0.5) * 0.1)
    (phBase + phVar + (r2 - 0.5) * 0.05).

Definition oxygenSample (E : Engine) (timestamp : Z) (i : nat) (r1 r2 : Q)
  : Sample :=
  let oxyBase := 6.8 in
  let oxyVar := wave E i 24 * 0.8 in
  mkSample timestamp
    (oxyBase + oxyVar + (r1 - 0.5) * 0.4)
    (oxyBase + oxyVar + (r2 - 0.5) * 0.2).

(** The local [data] object of [loadHistoricalData] while the loop runs,
    with the number of [Math.random()] calls made so far. *)
Record Generated : Type := mkGenerated {
  g_temperature : list Sample;
  g_salinity : list Sample;
  g_chlorophyll : list Sample;
  g_ph : list Sample;
  g_oxygen : list Sample;
  g_draws : nat
}.

(** One iteration of the [for] loop: five pushes, nine draws, in source
    order. *)
Definition loopBody (E : Engine) (now : Z) (hours : nat) (rnd : nat -> Q)
  (data : Generated) (i : nat) : Generated :=
  let d := g_draws data in
  let timestamp := timestampOf now hours i in
  mkGenerated
    (g_temperature data ++ [temperatureSample E timestamp i (rnd d)])
    (g_salinity data
     ++ [salinitySample E timestamp i (rnd (d + 1)%nat) (rnd (d + 2)%nat)])
    (g_chlorophyll data
     ++ [chlorophyllSample E timestamp i (rnd (d + 3)%nat) (rnd (d + 4)%nat)])
    (g_ph data ++ [phSample E timestamp i (rnd (d + 5)%nat) (rnd (d + 6)%nat)])
    (g_oxygen data
     ++ [oxygenSample E timestamp i (rnd (d + 7)%nat) (rnd (d + 8)%nat)])
    (d + 9)%nat.

Definition generate (E : Engine) (now : Z) (hours : nat) (rnd : nat -> Q)
  (d : nat) : Generated :=
  fold_left (loopBody E now hours rnd) (seq 0 hours)
            (mkGenerated [] [] [] [] [] d).

(** [loadHistoricalData()]: the new value of [this.historicalData] and
    the draw counter afterwards. *)
Definition loadHistoricalData (E : Engine) (now : Z) (forecastRange : string)
  (rnd : nat -> Q) (d : nat) : Store * nat :=
  let data := generate E now (hours forecastRange) rnd d in
  ([("temperature"%string, g_temperature data);
    ("salinity"%string, g_salinity data);
    ("chlorophyll"%string, g_chlorophyll data);
    ("ph"%string, g_ph data);
    ("oxygen"%string, g_oxygen data)],
   g_draws data).

(** ** The life of a module instance *)

Record Instance : Type := mkInstance {
  forecastRange : string;
  historicalData : Store;
  draws : nat
}.

(** [new OceanographicModule()] at time [now]: the range starts at
    ['7d']. *)
Definition construct (E : Engine) (rnd : nat -> Q) (now : Z) : Instance :=
  let (hd, d) := loadHistoricalData E now "7d" rnd 0 in
  mkInstance "7d" hd d.

(** [updateCharts()]: reload, then redraw. *)
Definition updateCharts (E : Engine) (rnd : nat -> Q) (now : Z)
  (m : Instance) : Instance :=
  let (hd, d) := loadHistoricalData E now (forecastRange m) rnd (draws m) in
  mkInstance (forecastRange m) hd d.

(** The interval callback; after a [TypeError] the arrays stay as the
    pass left them. *)
Definition liveUpdate (rnd : nat -> Q) (now : Z) (m : Instance) : Instance :=
  match updateCurrentValues now rnd (draws m) (historicalData m) with
  | Done hd d => mkInstance (forecastRange m) hd d
  | TypeError hd d => mkInstance (forecastRange m) hd d
  end.

(** The change handlers of the three selects, and the timer.  A change
    of parameter or station leaves the range as it is. *)
Inductive oceanEvent : Type :=
| RangeChanged (range : string) (now : Z)
| SelectionChanged (now : Z)
| Interval (now : Z).

Definition oceanStep (E : Engine) (rnd : nat -> Q) (m : Instance)
  (e : oceanEvent) : Instance :=
  match e with
  | RangeChanged range now =>
      updateCharts E rnd now
        (mkInstance range (historicalData m) (draws m))
  | SelectionChanged now => updateCharts E rnd now m
  | Interval now => liveUpdate rnd now m
  end.

Definition oceanRun (E : Engine) (rnd : nat -> Q) (evs : list oceanEvent)
  (m : Instance) : Instance :=
  fold_left (oceanStep E rnd) evs m.

Definition oceanReachable (E : Engine) (rnd : nat -> Q) (m : Instance)
  : Prop :=
  exists now evs, m = oceanRun E rnd evs (construct E rnd now).

(** ** The parameter card *)

(** [latest.value - (previous?.value || latest.value)] of
    [updateParameterCards], with [previous = data[data.length - 25]];
    [None]: the method returns before computing anything (no data). *)
Definition previousOf (data : list Sample) : option Sample :=
  if Nat.ltb (List.length data) 25 then None
  else nth_error data (List.length data - 25).

Definition changeOf (data : list Sample) : option Q :=
  match latest data with
  | None => None
  | Some l =>
      let previousValue :=
        match previousOf data with
        | Some p => if Qeq_bool (value p) 0 then value l else value p
        | None => value l
        end in
      Some (value l - previousValue)
  end.

Inductive trend : Type := Positive | Negative | Stable.

(** [change > 0.1 ? 'positive' : change < -0.1 ? 'negative' : 'stable'] *)
Definition trendClass (change : Q) : trend :=
  if negb (Qle_bool change 0.1) then Positive
  else if negb (Qle_bool (-0.1) change) then Negative
  else Stable.

(** ** What the charts are given *)

(** The two datasets of the forecast chart. *)
Definition historicalDataset (data : list Sample) : list Q :=
  map value (historical64 data).

Definition forecastDataset (data : list Sample) : list Q :=
  map predicted (forecast64 data).

(** [data.slice(-24)] of [createMiniCharts], then [.map(d => d.value)]. *)
Definition recentData (data : list Sample) : list Sample :=
  slice data (-24) None.

Definition miniDataset (data : list Sample) : list Q :=
  map value (recentData data).

(** ** Helpers for statements *)

(** Every sample of an array has its value in [[lo, hi]] and its
    prediction in [[plo, phi]]. *)
Definition within (lo hi plo phi : Q) (data : list Sample) : Prop :=
  Forall (fun s => lo <= value s /\ value s <= hi
                   /\ plo <= predicted s /\ predicted s <= phi) data.

(** The arrays of an instance: the five keys, all of one length [n]. *)
Definition shaped (n : nat) (hd : Store) : Prop :=
  map fst hd = parameters
  /\ Forall (fun kd => List.length (snd kd) = n) hd.

(** The timestamps of an array never decrease. *)
Definition chronological (data : list Sample) : Prop :=
  StronglySorted Z.le (map timestamp data).

(** An engine whose sine stays in [[-1, 1]]. *)
Definition sineBounded (E : Engine) : Prop :=
  forall x, -1 <= Math_sin E x /\ Math_sin E x <= 1.

(** A stand-in engine for concrete runs. *)
Definition flatEngine : Engine := mkEngine 3.141592653589793 (fun _ => 0).

Definition halves : nat -> Q := fun _ => 0.5.

End OceanMore.

Module Profile.

Local Open Scope Q_scope.

(** The noise amplitude a parameter is generated with: the factor of
    [(Math.random() - 0.5)] in the [value] that [loadHistoricalData]
    pushes for it. *)
Definition noiseAmplitude (key : string) : Q :=
  if String.eqb key "temperature" then 0.8
  else if String.eqb key "salinity" then 0.3
  else if String.eqb key "chlorophyll" then 0.8
  else if String.eqb key "ph" then 0.1
  else 0.4.

(** The value a tick appends according to the specification:
    [latest + (r - 1/2) * amp]. *)
Definition claimedValue (amp latest r : Q) : Q :=
  latest + (r - (1#2)) * amp.

End Profile.

Module Scenarios.

Import Training.

(** [n] trainings in a row, each started by a click and run to its
    completion by 100 periods of the timer. *)
Definition trainings (n : nat) (s : State) : State :=
  Nat.iter n (fun s => ticks 100 (startTraining s)) s.

Definition eleven_trainings : State :=
  trainings 11 (init (rnd_const 0.5)).

End Scenarios.

(* ===================================================================== *)
(** * The training scheduler                                              *)
(* ===================================================================== *)

Import Training.

(** Reduce the methods and the record plumbing, and nothing inside the
    numbers. *)
Ltac unfold_training :=
  cbv beta iota zeta delta
    [startTraining pauseTraining stopTraining completeTraining
     simulateTrainingEpoch clearTrainingInterval pushMetrics
     addTrainingLog showAlert setInterval clearInterval Math_random
     set_currentModel
     set_isTraining set_trainingInterval set_currentEpoch set_modelData
     set_timers set_draws set_logs set_alerts
     currentModel isTraining trainingInterval currentEpoch totalEpochs
     modelData timers nextTimer random draws logs alerts
     fst snd] in *.

Lemma filter_single_self (h : nat) :
  filter (fun t => negb (Nat.eqb t h)) [h] = [].
Proof. simpl. now rewrite Nat.eqb_refl. Qed.

(** ** Ticks against the timer table *)

Lemma tick_idle (s : State) : timers s = [] -> tick s = s.
Proof. unfold tick. intros ->. reflexivity. Qed.

Lemma tick_single (s : State) (h : nat) :
  timers s = [h] -> tick s = simulateTrainingEpoch s.
Proof.
  unfold tick, fire. intros H. rewrite H. simpl.
  rewrite H. simpl. now rewrite Nat.eqb_refl.
Qed.

Lemma ticks_idle (n : nat) (s : State) : timers s = [] -> ticks n s = s.
Proof.
  intros H. induction n as [|n IH]; [reflexivity|].
  unfold ticks in *. simpl. rewrite IH. now apply tick_idle.
Qed.

Lemma ticks_succ (n : nat) (s : State) : ticks (S n) s = tick (ticks n s).
Proof. reflexivity. Qed.

Lemma ticks_add (n k : nat) (s : State) :
  ticks (k + n) s = ticks k (ticks n s).
Proof. unfold ticks. now rewrite Nat.iter_add. Qed.

(** ** What one simulated epoch does to the scheduler *)

Lemma simulate_epoch (s : State) :
  currentEpoch (simulateTrainingEpoch s) = (currentEpoch s + 1)%Z
  /\ totalEpochs (simulateTrainingEpoch s) = totalEpochs s
  /\ currentModel (simulateTrainingEpoch s) = currentModel s
  /\ nextTimer (simulateTrainingEpoch s) = nextTimer s.
Proof.
  destruct s as [cm it ti ce te md tm nt rn dr lg al].
  unfold_training.
  destruct (Z.rem (ce + 1) 10 =? 0)%Z; unfold_training;
    destruct (ce + 1 >=? te)%Z; unfold_training;
    try (repeat split; reflexivity);
    destruct ti as [[|h]|]; unfold_training; repeat split; reflexivity.
Qed.

Lemma simulate_continue (s : State) :
  (currentEpoch s + 1 < totalEpochs s)%Z ->
  isTraining (simulateTrainingEpoch s) = isTraining s
  /\ trainingInterval (simulateTrainingEpoch s) = trainingInterval s
  /\ timers (simulateTrainingEpoch s) = timers s
  /\ alerts (simulateTrainingEpoch s) = alerts s.
Proof.
  destruct s as [cm it ti ce te md tm nt rn dr lg al].
  unfold_training. intros Hlt.
  assert (Hge : (ce + 1 >=? te)%Z = false) by lia.
  destruct (Z.rem (ce + 1) 10 =? 0)%Z; unfold_training; rewrite Hge;
    repeat split; reflexivity.
Qed.

Lemma simulate_complete (s : State) (h : nat) :
  timers s = [h] -> trainingInterval s = Some h -> h <> 0%nat ->
  (totalEpochs s <= currentEpoch s + 1)%Z ->
  isTraining (simulateTrainingEpoch s) = false
  /\ trainingInterval (simulateTrainingEpoch s) = None
  /\ timers (simulateTrainingEpoch s) = []
  /\ alerts (simulateTrainingEpoch s) = alerts s ++ [completedAlert].
Proof.
  destruct s as [cm it ti ce te md tm nt rn dr lg al].
  unfold_training. intros -> -> Hh Hle.
  assert (Hge : (ce + 1 >=? te)%Z = true) by lia.
  apply Nat.eqb_neq in Hh.
  destruct (Z.rem (ce + 1) 10 =? 0)%Z; unfold_training; rewrite Hge;
    unfold_training; rewrite Hh; unfold_training;
    rewrite filter_single_self; repeat split; reflexivity.
Qed.

(** ** The invariant *)

Lemma Inv_init (rnd : nat -> Q) : Inv (init rnd).
Proof. unfold Inv. cbn. repeat split; congruence. Qed.

Lemma Inv_idle_timers (s : State) :
  Inv s -> trainingInterval s = None -> timers s = [].
Proof. intros (Ht & _) H. now rewrite H in Ht. Qed.

Lemma Inv_running_timers (s : State) (h : nat) :
  Inv s -> trainingInterval s = Some h -> timers s = [h] /\ h <> 0%nat.
Proof. intros (Ht & Hp & _) H. rewrite H in Ht. split; auto. Qed.

Lemma start_fields (s : State) :
  Inv s -> isTraining s = false ->
  isTraining (startTraining s) = true
  /\ trainingInterval (startTraining s) = Some (nextTimer s)
  /\ timers (startTraining s) = [nextTimer s]
  /\ nextTimer (startTraining s) = S (nextTimer s)
  /\ currentEpoch (startTraining s) = 0%Z
  /\ totalEpochs (startTraining s) = totalEpochs s
  /\ alerts (startTraining s) = alerts s.
Proof.
  intros HI Hf.
  assert (Ht : timers s = []).
  { apply Inv_idle_timers; auto. now apply HI. }
  destruct s as [cm it ti ce te md tm nt rn dr lg al].
  unfold_training. subst. repeat split; reflexivity.
Qed.

Lemma start_running_noop (s : State) :
  isTraining s = true -> startTraining s = s.
Proof. unfold startTraining. now intros ->. Qed.

Lemma clear_fields (s : State) :
  Inv s ->
  trainingInterval (clearTrainingInterval s) = None
  /\ timers (clearTrainingInterval s) = []
  /\ nextTimer (clearTrainingInterval s) = nextTimer s
  /\ isTraining (clearTrainingInterval s) = isTraining s
  /\ currentEpoch (clearTrainingInterval s) = currentEpoch s
  /\ totalEpochs (clearTrainingInterval s) = totalEpochs s
  /\ alerts (clearTrainingInterval s) = alerts s.
Proof.
  intros (Ht & Hp & _ & _).
  destruct s as [cm it ti ce te md tm nt rn dr lg al].
  unfold_training. destruct ti as [h|].
  - specialize (Hp h eq_refl). apply Nat.eqb_neq in Hp. rewrite Hp.
    subst tm. rewrite filter_single_self. repeat split; reflexivity.
  - subst tm. repeat split; reflexivity.
Qed.

Lemma pause_fields (s : State) :
  Inv s ->
  trainingInterval (pauseTraining s) = None
  /\ timers (pauseTraining s) = []
  /\ nextTimer (pauseTraining s) = nextTimer s
  /\ isTraining (pauseTraining s) = isTraining s
  /\ currentEpoch (pauseTraining s) = currentEpoch s
  /\ totalEpochs (pauseTraining s) = totalEpochs s
  /\ alerts (pauseTraining s) = alerts s.
Proof.
  intros HI. unfold pauseTraining.
  destruct (isTraining s) eqn:Hit; cbn.
  - destruct (clear_fields s HI) as (H1 & H2 & H3 & H4 & H5 & H6 & H7).
    unfold addTrainingLog, set_logs. simpl.
    rewrite H1, H2, H3, H4, H5, H6, H7. repeat split; auto.
  - assert (trainingInterval s = None) by now apply HI.
    repeat split; auto. now apply Inv_idle_timers.
Qed.

Lemma stop_fields (s : State) :
  Inv s ->
  trainingInterval (stopTraining s) = None
  /\ timers (stopTraining s) = []
  /\ nextTimer (stopTraining s) = nextTimer s
  /\ isTraining (stopTraining s) = false
  /\ currentEpoch (stopTraining s) = currentEpoch s
  /\ totalEpochs (stopTraining s) = totalEpochs s
  /\ alerts (stopTraining s) = alerts s.
Proof.
  intros (Ht & Hp & _ & _).
  destruct s as [cm it ti ce te md tm nt rn dr lg al].
  unfold_training. destruct ti as [h|].
  - specialize (Hp h eq_refl). apply Nat.eqb_neq in Hp. rewrite Hp.
    subst tm. rewrite filter_single_self. repeat split; reflexivity.
  - subst tm. repeat split; reflexivity.
Qed.

Lemma Inv_of_fields (s s' : State) :
  Inv s ->
  timers s' = timers s -> trainingInterval s' = trainingInterval s ->
  isTraining s' = isTraining s -> nextTimer s' = nextTimer s ->
  Inv s'.
Proof.
  unfold Inv. intros (H1 & H2 & H3 & H4) -> -> -> ->. auto.
Qed.

Lemma Inv_idle (s : State) :
  timers s = [] -> trainingInterval s = None -> nextTimer s <> 0%nat ->
  Inv s.
Proof.
  unfold Inv. intros -> -> H. repeat split; auto. discriminate.
Qed.

Lemma Inv_start (s : State) : Inv s -> Inv (startTraining s).
Proof.
  intros HI. destruct (isTraining s) eqn:Hit.
  - now rewrite start_running_noop.
  - destruct (start_fields s HI Hit) as (H1 & H2 & H3 & H4 & _).
    unfold Inv. rewrite H1, H2, H3, H4. repeat split; try discriminate.
    intros h [= <-]. now apply HI.
Qed.

Lemma Inv_pause (s : State) : Inv s -> Inv (pauseTraining s).
Proof.
  intros HI. destruct (pause_fields s HI) as (H1 & H2 & H3 & _).
  apply Inv_idle; auto. rewrite H3. now apply HI.
Qed.

Lemma Inv_stop (s : State) : Inv s -> Inv (stopTraining s).
Proof.
  intros HI. destruct (stop_fields s HI) as (H1 & H2 & H3 & _).
  apply Inv_idle; auto. rewrite H3. now apply HI.
Qed.

(** A tick is either lost (no live timer) or exactly one simulated
    epoch. *)
Lemma tick_cases (s : State) :
  Inv s ->
  (trainingInterval s = None /\ tick s = s)
  \/ (exists h, trainingInterval s = Some h /\ timers s = [h] /\ h <> 0%nat
                /\ tick s = simulateTrainingEpoch s).
Proof.
  intros HI. destruct (trainingInterval s) as [h|] eqn:Hti.
  - right. exists h. destruct (Inv_running_timers s h HI Hti) as [Ht Hh].
    repeat split; auto. now apply tick_single with h.
  - left. split; auto. apply tick_idle. now apply Inv_idle_timers.
Qed.

Lemma Inv_simulate (s : State) (h : nat) :
  Inv s -> trainingInterval s = Some h ->
  Inv (simulateTrainingEpoch s).
Proof.
  intros HI Hti. destruct (Inv_running_timers s h HI Hti) as [Ht Hh].
  destruct (simulate_epoch s) as (_ & _ & _ & Hn).
  destruct (Z_lt_le_dec (currentEpoch s + 1) (totalEpochs s)) as [Hlt|Hle].
  - destruct (simulate_continue s Hlt) as (H1 & H2 & H3 & _).
    now apply Inv_of_fields with s.
  - destruct (simulate_complete s h Ht Hti Hh Hle) as (_ & H2 & H3 & _).
    apply Inv_idle; auto. rewrite Hn. now apply HI.
Qed.

Lemma Inv_tick (s : State) : Inv s -> Inv (tick s).
Proof.
  intros HI. destruct (tick_cases s HI) as [[_ ->]|(h & Hti & _ & _ & ->)];
    auto. now apply Inv_simulate with h.
Qed.

Lemma Inv_step (s : State) (e : event) : Inv s -> Inv (step s e).
Proof.
  destruct e; simpl; auto using Inv_start, Inv_pause, Inv_stop, Inv_tick.
Qed.

Lemma Inv_run (evs : list event) (s : State) : Inv s -> Inv (run evs s).
Proof.
  revert s. induction evs as [|e evs IH]; intros s HI; simpl; auto.
  apply IH. now apply Inv_step.
Qed.

Lemma reachable_Inv (s : State) : reachable s -> Inv s.
Proof. intros (rnd & evs & ->). apply Inv_run, Inv_init. Qed.

Lemma reachable_init (rnd : nat -> Q) : reachable (init rnd).
Proof. exists rnd, []. reflexivity. Qed.

Lemma run_snoc (evs : list event) (e : event) (s : State) :
  run (evs ++ [e]) s = step (run evs s) e.
Proof. unfold run. now rewrite fold_left_app. Qed.

Lemma reachable_step (s : State) (e : event) :
  reachable s -> reachable (step s e).
Proof.
  intros (rnd & evs & ->). exists rnd, (evs ++ [e]). now rewrite run_snoc.
Qed.

Lemma reachable_ticks (n : nat) (s : State) :
  reachable s -> reachable (ticks n s).
Proof.
  intros H. induction n as [|n IH]; auto.
  rewrite ticks_succ. now apply (reachable_step _ ETick).
Qed.

(** No event changes the target or the model shown. *)
Lemma step_totalEpochs (s : State) (e : event) :
  Inv s -> totalEpochs (step s e) = totalEpochs s.
Proof.
  intros HI. destruct e; simpl.
  - destruct (isTraining s) eqn:Hit.
    + now rewrite start_running_noop.
    + now apply start_fields.
  - now apply pause_fields.
  - now apply stop_fields.
  - destruct (tick_cases s HI) as [[_ ->]|(h & _ & _ & _ & ->)]; auto.
    now apply simulate_epoch.
  - reflexivity.
Qed.

Lemma reachable_totalEpochs (s : State) :
  reachable s -> totalEpochs s = 100%Z.
Proof.
  intros (rnd & evs & ->).
  induction evs as [|e evs IH] using rev_ind; [reflexivity|].
  rewrite run_snoc, step_totalEpochs; auto. apply Inv_run, Inv_init.
Qed.

(** ** Running to completion *)

Lemma completions_snoc (s s' : State) :
  alerts s' = alerts s ++ [completedAlert] ->
  completions s' = S (completions s).
Proof.
  unfold completions. intros ->. rewrite filter_app, length_app.
  simpl. lia.
Qed.

Lemma completions_same (s s' : State) :
  alerts s' = alerts s -> completions s' = completions s.
Proof. unfold completions. now intros ->. Qed.

(** While the target is not reached, [n] ticks are [n] epochs and nothing
    else. *)
Lemma ticks_before_target (s : State) (h : nat) (n : nat) :
  Inv s -> trainingInterval s = Some h -> isTraining s = true ->
  (currentEpoch s + Z.of_nat n < totalEpochs s)%Z ->
  Inv (ticks n s)
  /\ trainingInterval (ticks n s) = Some h
  /\ isTraining (ticks n s) = true
  /\ currentEpoch (ticks n s) = (currentEpoch s + Z.of_nat n)%Z
  /\ totalEpochs (ticks n s) = totalEpochs s
  /\ alerts (ticks n s) = alerts s.
Proof.
  intros HI Hti Hit. induction n as [|n IH]; intros Hlt.
  - change (ticks 0 s) with s. simpl. rewrite Z.add_0_r.
    split; [exact HI|]. repeat split; auto.
  - destruct IH as (HI' & Hti' & Hit' & He & Ht & Ha); [lia|].
    rewrite ticks_succ.
    destruct (Inv_running_timers _ h HI' Hti') as [Htm Hh].
    rewrite (tick_single _ h Htm).
    destruct (simulate_epoch (ticks n s)) as (E1 & E2 & _ & _).
    destruct (simulate_continue (ticks n s)) as (C1 & C2 & C3 & C4);
      [lia|].
    split; [now apply Inv_simulate with h|].
    rewrite C1, C2, C4, E1, E2. repeat split; auto; lia.
Qed.

(** The tick that reaches the target completes the training. *)
Lemma tick_at_target (s : State) (h : nat) :
  Inv s -> trainingInterval s = Some h ->
  (totalEpochs s <= currentEpoch s + 1)%Z ->
  isTraining (tick s) = false
  /\ trainingInterval (tick s) = None
  /\ timers (tick s) = []
  /\ currentEpoch (tick s) = (currentEpoch s + 1)%Z
  /\ alerts (tick s) = alerts s ++ [completedAlert].
Proof.
  intros HI Hti Hle.
  destruct (Inv_running_timers _ h HI Hti) as [Htm Hh].
  rewrite (tick_single _ h Htm).
  destruct (simulate_epoch s) as (E1 & _).
  destruct (simulate_complete s h Htm Hti Hh Hle) as (C1 & C2 & C3 & C4).
  repeat split; auto.
Qed.

(** C1. Started with the target of 100 epochs and driven by the timer,
    the scheduler advances one epoch per tick; the completion callback
    (the "training completed" alert of [completeTraining]) has fired
    zero times before the 100th tick and exactly once from the 100th tick
    on; and from then on the scheduler is stopped: the epoch counter stays
    at 100, no timer is live, and a further tick changes nothing. *)
Theorem completion_fires_once_at_tick_100 (s0 : State) (n : nat) :
  reachable s0 -> isTraining s0 = false ->
  totalEpochs (startTraining s0) = 100%Z
  /\ completions (ticks n (startTraining s0))
     = (completions s0 + (if (n <? 100)%nat then 0 else 1))%nat
  /\ ((n <= 100)%nat ->
      currentEpoch (ticks n (startTraining s0)) = Z.of_nat n)
  /\ ((100 <= n)%nat ->
      currentEpoch (ticks n (startTraining s0)) = 100%Z
      /\ isTraining (ticks n (startTraining s0)) = false
      /\ timers (ticks n (startTraining s0)) = []
      /\ tick (ticks n (startTraining s0)) = ticks n (startTraining s0)).
Proof.
  intros Hr Hit.
  pose proof (reachable_Inv _ Hr) as HI.
  pose proof (reachable_totalEpochs _ Hr) as HT.
  destruct (start_fields s0 HI Hit) as (S1 & S2 & S3 & S4 & S5 & S6 & S7).
  pose proof (Inv_start _ HI) as HI1.
  set (s1 := startTraining s0) in *.
  assert (T1 : totalEpochs s1 = 100%Z) by congruence.
  (* the state after 99 ticks, and after the 100th *)
  destruct (ticks_before_target s1 (nextTimer s0) 99 HI1 S2 S1)
    as (HI99 & Hti99 & _ & He99 & Ht99 & Ha99); [rewrite S5, T1; lia|].
  destruct (tick_at_target (ticks 99 s1) (nextTimer s0) HI99 Hti99)
    as (D1 & D2 & D3 & D4 & D5); [rewrite Ht99, He99, S5, T1; simpl; lia|].
  rewrite <- ticks_succ in D1, D2, D3, D4, D5.
  assert (Hafter : forall k, ticks (k + 100) s1 = ticks 100 s1).
  { intros k. rewrite ticks_add. now apply ticks_idle. }
  split; [exact T1|].
  destruct (Nat.ltb_spec n 100) as [Hlt|Hge].
  - destruct (ticks_before_target s1 (nextTimer s0) n HI1 S2 S1)
      as (_ & _ & _ & He & _ & Ha); [rewrite S5, T1; lia|].
    split; [|split].
    + rewrite Nat.add_0_r. apply completions_same. congruence.
    + intros _. rewrite He, S5. lia.
    + intros Hn. lia.
  - replace n with ((n - 100) + 100)%nat by lia. rewrite Hafter.
    assert (E100 : currentEpoch (ticks 100 s1) = 100%Z).
    { rewrite D4, He99, S5. reflexivity. }
    split; [|split].
    + rewrite (completions_snoc (ticks 99 s1)); auto.
      rewrite (completions_same s0); [lia|congruence].
    + intros Hn. rewrite E100. lia.
    + intros _. repeat split; auto. now apply tick_idle.
Qed.

Lemma completion_fires_once_at_tick_100_witness :
  totalEpochs (startTraining (init (rnd_const 0.5))) = 100%Z
  /\ completions (ticks 100 (startTraining (init (rnd_const 0.5)))) = 1%nat
  /\ currentEpoch (ticks 100 (startTraining (init (rnd_const 0.5)))) = 100%Z
  /\ isTraining (ticks 100 (startTraining (init (rnd_const 0.5)))) = false
  /\ timers (ticks 100 (startTraining (init (rnd_const 0.5)))) = []
  /\ tick (ticks 100 (startTraining (init (rnd_const 0.5))))
     = ticks 100 (startTraining (init (rnd_const 0.5))).
Proof.
  destruct (completion_fires_once_at_tick_100 (init (rnd_const 0.5)) 100)
    as (H1 & H2 & H3 & H4).
  - exists (rnd_const 0.5), []. reflexivity.
  - reflexivity.
  - split; [exact H1|]. split; [exact H2|]. apply H4. lia.
Defined.

(** The stop after completion is the timer's doing: [completeTraining]
    cancels the interval, so the callback is not invoked again.  The
    callback itself does not look at [isTraining]; invoked by hand once
    more it would count epoch 101 and complete a second time. *)
Lemma epoch_callback_is_unguarded :
  currentEpoch
    (simulateTrainingEpoch (ticks 100 (startTraining (init (rnd_const 0.5)))))
  = 101%Z
  /\ completions
       (simulateTrainingEpoch (ticks 100 (startTraining (init (rnd_const 0.5)))))
     = 2.
Proof. split; vm_compute; reflexivity. Qed.

(** ** Start, pause and stop *)

Lemma delivers_running (s : State) (h : nat) :
  timers s = [h] -> delivers s.
Proof.
  intros Ht. unfold delivers. rewrite (tick_single s h Ht).
  apply simulate_epoch.
Qed.

(** C2 (counterexample). After one epoch of a running training, [pause()]
    followed by [start()] does not resume firing: the next period of the
    timer delivers no epoch. *)
Lemma pause_then_start_does_not_resume :
  ~ (delivers (startTraining (pauseTraining after_one_epoch))
     /\ currentEpoch (startTraining (pauseTraining after_one_epoch))
        = currentEpoch after_one_epoch).
Proof.
  unfold delivers. intros [H _]. vm_compute in H. discriminate H.
Qed.

(** C2 (as amended). In every reachable state: while a training is on
    (running or paused), [pause()] followed by [start()] keeps the epoch
    counter at its pre-pause value but does not resume firing, because
    [start()] returns at once while [isTraining] is set: no timer is
    live and a tick changes nothing.  [stop()] followed by [start()]
    begins one tick stream with the epoch counter equal to zero. *)
Theorem pause_start_keeps_counter_stop_start_restarts (s : State) :
  reachable s ->
  (isTraining s = true ->
     currentEpoch (startTraining (pauseTraining s)) = currentEpoch s
     /\ timers (startTraining (pauseTraining s)) = []
     /\ tick (startTraining (pauseTraining s))
        = startTraining (pauseTraining s))
  /\ (currentEpoch (startTraining (stopTraining s)) = 0%Z
      /\ (exists h, timers (startTraining (stopTraining s)) = [h])
      /\ delivers (startTraining (stopTraining s))).
Proof.
  intros Hr. pose proof (reachable_Inv _ Hr) as HI. split.
  - intros Hit.
    destruct (pause_fields s HI) as (_ & P2 & _ & P4 & P5 & _).
    rewrite start_running_noop by congruence.
    repeat split; auto. now apply tick_idle.
  - destruct (stop_fields s HI) as (_ & _ & _ & T4 & _).
    destruct (start_fields _ (Inv_stop _ HI) T4) as (_ & _ & S3 & _ & S5 & _).
    repeat split; auto.
    + eexists; exact S3.
    + eapply delivers_running; exact S3.
Qed.

Lemma pause_start_keeps_counter_stop_start_restarts_witness :
  (currentEpoch (startTraining (pauseTraining after_one_epoch))
   = currentEpoch after_one_epoch
   /\ timers (startTraining (pauseTraining after_one_epoch)) = []
   /\ tick (startTraining (pauseTraining after_one_epoch))
      = startTraining (pauseTraining after_one_epoch))
  /\ (currentEpoch (startTraining (stopTraining after_one_epoch)) = 0%Z
      /\ (exists h, timers (startTraining (stopTraining after_one_epoch)) = [h])
      /\ delivers (startTraining (stopTraining after_one_epoch))).
Proof.
  destruct (pause_start_keeps_counter_stop_start_restarts after_one_epoch)
    as [H1 H2].
  - exists (rnd_const 0.5), [EStart; ETick]. reflexivity.
  - split; [apply H1; reflexivity|exact H2].
Defined.

(** C3 (counterexample). Stopping a training after its first epoch leaves
    the epoch counter at 1, not 0. *)
Lemma stop_does_not_reset_counter :
  currentEpoch (stopTraining after_one_epoch) = 1%Z
  /\ currentEpoch (stopTraining after_one_epoch) <> 0%Z.
Proof. split; vm_compute; [reflexivity|discriminate]. Qed.

(** C3 (as amended). In every reachable state, [stop()] suspends firing
    (no timer is live, a tick changes nothing) and leaves the epoch
    counter unchanged; the counter is set to zero by the next [start()].
    [pause()] suspends firing and leaves the epoch counter unchanged. *)
Theorem stop_and_pause_suspend_and_keep_counter (s : State) :
  reachable s ->
  (timers (stopTraining s) = []
   /\ tick (stopTraining s) = stopTraining s
   /\ currentEpoch (stopTraining s) = currentEpoch s
   /\ currentEpoch (startTraining (stopTraining s)) = 0%Z)
  /\ (timers (pauseTraining s) = []
      /\ tick (pauseTraining s) = pauseTraining s
      /\ currentEpoch (pauseTraining s) = currentEpoch s).
Proof.
  intros Hr. pose proof (reachable_Inv _ Hr) as HI.
  destruct (stop_fields s HI) as (_ & T2 & _ & T4 & T5 & _).
  destruct (pause_fields s HI) as (_ & P2 & _ & _ & P5 & _).
  destruct (start_fields _ (Inv_stop _ HI) T4) as (_ & _ & _ & _ & S5 & _).
  repeat split; auto using tick_idle.
Qed.

Lemma stop_and_pause_suspend_and_keep_counter_witness :
  (timers (stopTraining after_one_epoch) = []
   /\ tick (stopTraining after_one_epoch) = stopTraining after_one_epoch
   /\ currentEpoch (stopTraining after_one_epoch)
      = currentEpoch after_one_epoch
   /\ currentEpoch (startTraining (stopTraining after_one_epoch)) = 0%Z)
  /\ (timers (pauseTraining after_one_epoch) = []
      /\ tick (pauseTraining after_one_epoch) = pauseTraining after_one_epoch
      /\ currentEpoch (pauseTraining after_one_epoch)
         = currentEpoch after_one_epoch).
Proof.
  apply (stop_and_pause_suspend_and_keep_counter after_one_epoch).
  exists (rnd_const 0.5), [EStart; ETick]. reflexivity.
Defined.

(** ** The metric arrays *)

Lemma model_eqb_eq (a b : model) : model_eqb a b = true <-> a = b.
Proof. destruct a, b; simpl; split; intros H; congruence. Qed.

Lemma model_eqb_refl (a : model) : model_eqb a a = true.
Proof. now apply model_eqb_eq. Qed.

Lemma start_modelData (s : State) :
  modelData (startTraining s) = modelData s.
Proof.
  destruct s as [cm it ti ce te md tm nt rn dr lg al].
  unfold_training. destruct it; reflexivity.
Qed.

Lemma pause_modelData (s : State) :
  modelData (pauseTraining s) = modelData s.
Proof.
  destruct s as [cm it ti ce te md tm nt rn dr lg al].
  unfold_training. destruct it; simpl; [|reflexivity].
  destruct ti as [[|h]|]; reflexivity.
Qed.

Lemma stop_modelData (s : State) :
  modelData (stopTraining s) = modelData s.
Proof.
  destruct s as [cm it ti ce te md tm nt rn dr lg al].
  unfold_training. destruct ti as [[|h]|]; reflexivity.
Qed.

(** One simulated epoch pushes one accuracy and one loss onto the arrays
    of the current model, computed from their last entries and the next
    two answers of the oracle, and touches no other model. *)
Lemma simulate_modelData (s : State) :
  modelData (simulateTrainingEpoch s)
  = fun m =>
      if model_eqb m (currentModel s)
      then mkModelData
             (accuracy (modelData s (currentModel s))
              ++ [newAccuracyOf (baseAccuracyOf s) (random s (draws s))])
             (loss (modelData s (currentModel s))
              ++ [newLossOf (baseLossOf s) (random s (S (draws s)))])
      else modelData s m.
Proof.
  destruct s as [cm it ti ce te md tm nt rn dr lg al].
  unfold baseAccuracyOf, baseLossOf. unfold_training.
  destruct (Z.rem (ce + 1) 10 =? 0)%Z; unfold_training;
    destruct (ce + 1 >=? te)%Z; unfold_training; try reflexivity;
    destruct ti as [[|h]|]; reflexivity.
Qed.

(** Nothing is ever evicted from the metric arrays: each epoch makes
    both one entry longer. *)
Lemma simulate_lengths (s : State) :
  List.length (accuracy (modelData (simulateTrainingEpoch s) (currentModel s)))
  = S (List.length (accuracy (modelData s (currentModel s))))
  /\ List.length (loss (modelData (simulateTrainingEpoch s) (currentModel s)))
     = S (List.length (loss (modelData s (currentModel s)))).
Proof.
  rewrite simulate_modelData, model_eqb_refl. simpl.
  rewrite !length_app. simpl. lia.
Qed.

Lemma last_Num (l : list num) :
  l <> [] -> Forall (fun x => x <> NaN) l -> exists q, last l NaN = Num q.
Proof.
  intros Hne Hall.
  destruct (exists_last Hne) as (l' & x & ->).
  rewrite last_last. apply Forall_app in Hall as [_ Hx].
  inversion Hx as [|? ? Hnx _]; subst.
  destruct x as [|q]; [congruence|now exists q].
Qed.

Lemma le_const_finite (c : Q) (x : num) : num_le_const x c -> x <> NaN.
Proof. destruct x; simpl; [tauto|discriminate]. Qed.

Lemma const_le_finite (c : Q) (x : num) : const_le_num c x -> x <> NaN.
Proof. destruct x; simpl; [tauto|discriminate]. Qed.

Lemma seed_finite (m : model) :
  Forall (fun x => x <> NaN) (accuracy (seed m))
  /\ Forall (fun x => x <> NaN) (loss (seed m))
  /\ accuracy (seed m) <> [] /\ loss (seed m) <> [].
Proof.
  destruct m; simpl; repeat split; try discriminate;
    repeat constructor; discriminate.
Qed.

(** Under the invariant the base values are finite. *)
Lemma base_finite (s : State) :
  MetricsInv s ->
  (exists a, baseAccuracyOf s = Num a) /\ (exists l, baseLossOf s = Num l).
Proof.
  intros HM. destruct (HM (currentModel s)) as [(accs & Ea & Fa) (ls & El & Fl)].
  destruct (seed_finite (currentModel s)) as (Sa & Sl & Na & Nl).
  unfold baseAccuracyOf, baseLossOf. rewrite Ea, El. split.
  - apply last_Num.
    + intros H. apply app_eq_nil in H as [H _]. contradiction.
    + apply Forall_app. split; auto.
      eapply Forall_impl; [|exact Fa]. intros a. apply le_const_finite.
  - apply last_Num.
    + intros H. apply app_eq_nil in H as [H _]. contradiction.
    + apply Forall_app. split; auto.
      eapply Forall_impl; [|exact Fl]. intros a. apply const_le_finite.
Qed.

Lemma newAccuracy_clamped (b r : Q) :
  num_le_const (newAccuracyOf (Num b) r) 0.98.
Proof. unfold newAccuracyOf. simpl. apply Q.le_min_l. Qed.

Lemma newLoss_clamped (b r : Q) :
  const_le_num 0.1 (newLossOf (Num b) r).
Proof. unfold newLossOf. simpl. apply Q.le_max_l. Qed.

Lemma MetricsInv_init (rnd : nat -> Q) : MetricsInv (init rnd).
Proof.
  intros m. simpl. split; exists []; rewrite app_nil_r; split; auto.
Qed.

Lemma MetricsInv_simulate (s : State) :
  MetricsInv s -> MetricsInv (simulateTrainingEpoch s).
Proof.
  intros HM m. rewrite simulate_modelData.
  destruct (base_finite s HM) as [(a & Ea) (l & El)].
  destruct (model_eqb m (currentModel s)) eqn:Hm; [|apply HM].
  apply model_eqb_eq in Hm. subst m.
  destruct (HM (currentModel s)) as [(accs & Ha & Fa) (ls & Hl & Fl)].
  simpl. split.
  - exists (accs ++ [newAccuracyOf (baseAccuracyOf s) (random s (draws s))]).
    rewrite Ha, app_assoc. split; auto.
    apply Forall_app. split; auto. constructor; auto.
    rewrite Ea. apply newAccuracy_clamped.
  - exists (ls ++ [newLossOf (baseLossOf s) (random s (S (draws s)))]).
    rewrite Hl, app_assoc. split; auto.
    apply Forall_app. split; auto. constructor; auto.
    rewrite El. apply newLoss_clamped.
Qed.

Lemma MetricsInv_step (s : State) (e : event) :
  Inv s -> MetricsInv s -> MetricsInv (step s e).
Proof.
  intros HI HM. destruct e; simpl.
  - intros m. rewrite start_modelData. apply HM.
  - intros m. rewrite pause_modelData. apply HM.
  - intros m. rewrite stop_modelData. apply HM.
  - destruct (tick_cases s HI) as [[_ ->]|(h & _ & _ & _ & ->)]; auto.
    now apply MetricsInv_simulate.
  - exact HM.
Qed.

Lemma reachable_MetricsInv (s : State) : reachable s -> MetricsInv s.
Proof.
  intros (rnd & evs & ->).
  induction evs as [|e evs IH] using rev_ind.
  - apply MetricsInv_init.
  - rewrite run_snoc. apply MetricsInv_step; auto.
    apply Inv_run, Inv_init.
Qed.

(** C10. In every reachable state and for every pair of random draws,
    the accuracy that a simulated epoch would append is at most 0.98 and
    the loss at least 0.1; the epoch appends exactly these two values,
    computed from the next two answers of the oracle; hence, in every
    reachable state, every entry after the seed data of every accuracy
    array is at most 0.98 and every such entry of every loss array is at
    least 0.1. *)
Theorem appended_metrics_are_clamped (s : State) :
  reachable s ->
  (forall r1 r2 : Q,
      num_le_const (newAccuracyOf (baseAccuracyOf s) r1) 0.98
      /\ const_le_num 0.1 (newLossOf (baseLossOf s) r2))
  /\ (accuracy (modelData (simulateTrainingEpoch s) (currentModel s))
      = accuracy (modelData s (currentModel s))
        ++ [newAccuracyOf (baseAccuracyOf s) (random s (draws s))]
      /\ loss (modelData (simulateTrainingEpoch s) (currentModel s))
         = loss (modelData s (currentModel s))
           ++ [newLossOf (baseLossOf s) (random s (S (draws s)))])
  /\ (forall m,
        Forall (fun a => num_le_const a 0.98)
               (appended (List.length (accuracy (seed m)))
                         (accuracy (modelData s m)))
        /\ Forall (fun l => const_le_num 0.1 l)
                  (appended (List.length (loss (seed m)))
                            (loss (modelData s m)))).
Proof.
  intros Hr. pose proof (reachable_MetricsInv _ Hr) as HM.
  destruct (base_finite s HM) as [(a & Ea) (l & El)].
  split; [|split].
  - intros r1 r2. rewrite Ea, El.
    split; [apply newAccuracy_clamped|apply newLoss_clamped].
  - rewrite simulate_modelData, model_eqb_refl. split; reflexivity.
  - intros m. destruct (HM m) as [(accs & Ha & Fa) (ls & Hl & Fl)].
    unfold appended. rewrite Ha, Hl, !skipn_app, !skipn_all, !Nat.sub_diag.
    simpl. split; assumption.
Qed.

Lemma appended_metrics_are_clamped_witness :
  (forall r1 r2 : Q,
      num_le_const (newAccuracyOf (baseAccuracyOf after_one_epoch) r1) 0.98
      /\ const_le_num 0.1 (newLossOf (baseLossOf after_one_epoch) r2))
  /\ (forall m,
        Forall (fun a => num_le_const a 0.98)
               (appended (List.length (accuracy (seed m)))
                         (accuracy (modelData after_one_epoch m)))
        /\ Forall (fun l => const_le_num 0.1 l)
                  (appended (List.length (loss (seed m)))
                            (loss (modelData after_one_epoch m)))).
Proof.
  destruct (appended_metrics_are_clamped after_one_epoch) as (H1 & _ & H3).
  - exists (rnd_const 0.5), [EStart; ETick]. reflexivity.
  - split; [exact H1|exact H3].
Defined.

(** ** Idempotence and the calls that find nothing to do *)

(** C4. In a reachable Running state (training on, timer [h] live),
    [start()] changes nothing at all: the state is returned as it was, so
    [h] is still the only live timer and the epoch counter is not reset;
    the next period of the timer is exactly one epoch: the counter grows
    by one and each metric array of the current model by one entry. *)
Theorem start_while_running_is_noop (s : State) (h : nat) :
  reachable s -> isTraining s = true -> trainingInterval s = Some h ->
  startTraining s = s
  /\ timers (startTraining s) = [h]
  /\ currentEpoch (startTraining s) = currentEpoch s
  /\ currentEpoch (tick (startTraining s)) = (currentEpoch s + 1)%Z
  /\ List.length (accuracy (modelData (tick (startTraining s)) (currentModel s)))
     = S (List.length (accuracy (modelData s (currentModel s))))
  /\ List.length (loss (modelData (tick (startTraining s)) (currentModel s)))
     = S (List.length (loss (modelData s (currentModel s)))).
Proof.
  intros Hr Hit Hti. pose proof (reachable_Inv _ Hr) as HI.
  destruct (Inv_running_timers s h HI Hti) as [Htm _].
  rewrite (start_running_noop s Hit), (tick_single s h Htm).
  rewrite simulate_modelData, model_eqb_refl. simpl.
  rewrite !length_app. simpl.
  repeat split; auto; try lia. apply simulate_epoch.
Qed.

Lemma start_while_running_is_noop_witness :
  startTraining after_one_epoch = after_one_epoch
  /\ timers (startTraining after_one_epoch) = [1%nat]
  /\ currentEpoch (startTraining after_one_epoch)
     = currentEpoch after_one_epoch
  /\ currentEpoch (tick (startTraining after_one_epoch))
     = (currentEpoch after_one_epoch + 1)%Z
  /\ List.length
       (accuracy (modelData (tick (startTraining after_one_epoch))
                            (currentModel after_one_epoch)))
     = S (List.length
            (accuracy (modelData after_one_epoch
                                 (currentModel after_one_epoch))))
  /\ List.length
       (loss (modelData (tick (startTraining after_one_epoch))
                        (currentModel after_one_epoch)))
     = S (List.length
            (loss (modelData after_one_epoch
                             (currentModel after_one_epoch)))).
Proof.
  apply (start_while_running_is_noop after_one_epoch 1).
  - exists (rnd_const 0.5), [EStart; ETick]. reflexivity.
  - reflexivity.
  - reflexivity.
Defined.

(** C9. In a reachable state with no live tick stream (never started,
    paused, stopped or completed), [pause()] and [stop()] both return
    normally, leave the epoch counter as it is, and neither start nor
    cancel a timer.  When the instance is not training, [pause()]
    returns the state unchanged and [stop()] leaves every scheduler field
    unchanged. *)
Theorem pause_stop_when_not_running (s : State) :
  reachable s -> trainingInterval s = None ->
  (currentEpoch (pauseTraining s) = currentEpoch s
   /\ timers (pauseTraining s) = timers s
   /\ trainingInterval (pauseTraining s) = trainingInterval s
   /\ nextTimer (pauseTraining s) = nextTimer s)
  /\ (currentEpoch (stopTraining s) = currentEpoch s
      /\ timers (stopTraining s) = timers s
      /\ trainingInterval (stopTraining s) = trainingInterval s
      /\ nextTimer (stopTraining s) = nextTimer s)
  /\ (isTraining s = false ->
      pauseTraining s = s /\ scheduler (stopTraining s) = scheduler s).
Proof.
  intros Hr Hti. pose proof (reachable_Inv _ Hr) as HI.
  pose proof (Inv_idle_timers s HI Hti) as Htm.
  destruct (pause_fields s HI) as (P1 & P2 & P3 & _ & P5 & _).
  destruct (stop_fields s HI) as (T1 & T2 & T3 & T4 & T5 & T6 & _).
  rewrite Hti, Htm.
  split; [repeat split; auto|]. split; [repeat split; auto|].
  intros Hit. split.
  - unfold pauseTraining. now rewrite Hit.
  - unfold scheduler. rewrite T1, T2, T3, T4, T5, T6, Hit, Hti, Htm.
    reflexivity.
Qed.

Lemma pause_stop_when_not_running_witness :
  (currentEpoch (pauseTraining (stopTraining after_one_epoch))
   = currentEpoch (stopTraining after_one_epoch)
   /\ timers (pauseTraining (stopTraining after_one_epoch))
      = timers (stopTraining after_one_epoch)
   /\ trainingInterval (pauseTraining (stopTraining after_one_epoch))
      = trainingInterval (stopTraining after_one_epoch)
   /\ nextTimer (pauseTraining (stopTraining after_one_epoch))
      = nextTimer (stopTraining after_one_epoch))
  /\ (currentEpoch (stopTraining (stopTraining after_one_epoch))
      = currentEpoch (stopTraining after_one_epoch)
      /\ timers (stopTraining (stopTraining after_one_epoch))
         = timers (stopTraining after_one_epoch)
      /\ trainingInterval (stopTraining (stopTraining after_one_epoch))
         = trainingInterval (stopTraining after_one_epoch)
      /\ nextTimer (stopTraining (stopTraining after_one_epoch))
         = nextTimer (stopTraining after_one_epoch))
  /\ pauseTraining (stopTraining after_one_epoch)
     = stopTraining after_one_epoch
  /\ scheduler (stopTraining (stopTraining after_one_epoch))
     = scheduler (stopTraining after_one_epoch).
Proof.
  destruct (pause_stop_when_not_running (stopTraining after_one_epoch))
    as (H1 & H2 & H3).
  - exists (rnd_const 0.5), [EStart; ETick; EStop]. reflexivity.
  - reflexivity.
  - split; [exact H1|]. split; [exact H2|]. apply H3. reflexivity.
Defined.

(* ===================================================================== *)
(** * The oceanographic series buffers                                    *)
(* ===================================================================== *)

Import Ocean.

(** ** Lists: the last [n] elements *)

Section LastN.

Context {A : Type}.
Implicit Types l r : list A.

Lemma tl_skipn l : tl l = skipn 1 l.
Proof. destruct l; reflexivity. Qed.

Lemma lastn_all n l : List.length l <= n -> lastn n l = l.
Proof.
  intros H. unfold lastn.
  replace (List.length l - n) with 0 by lia. reflexivity.
Qed.

Lemma length_lastn n l : List.length (lastn n l) = Nat.min n (List.length l).
Proof. unfold lastn. rewrite length_skipn. lia. Qed.

Lemma lastn_app_lastn n l r : lastn n (lastn n l ++ r) = lastn n (l ++ r).
Proof.
  destruct (Nat.le_gt_cases (List.length l) n) as [Hle|Hgt].
  - now rewrite (lastn_all n l Hle).
  - unfold lastn at 1 3. rewrite !length_app, length_lastn, !skipn_app.
    unfold lastn. rewrite skipn_skipn, length_skipn.
    replace (Nat.min n (List.length l)) with n by lia.
    f_equal; f_equal; lia.
Qed.

Lemma lastn_app_long n l r :
  n <= List.length r -> lastn n (l ++ r) = lastn n r.
Proof.
  intros H. unfold lastn. rewrite length_app, skipn_app.
  rewrite skipn_all2 by lia. simpl. f_equal. lia.
Qed.

End LastN.

(** ** Appending under the cap *)

Lemma appendCapped_lastn (cap : nat) (data : list Sample) (s : Sample) :
  List.length data <= cap ->
  appendCapped cap data s = lastn cap (data ++ [s]).
Proof.
  intros Hle. unfold appendCapped, lastn.
  rewrite length_app. simpl.
  destruct (Nat.ltb_spec cap (List.length data + 1)) as [Hlt|Hge].
  - rewrite tl_skipn. f_equal. lia.
  - replace (List.length data + 1 - cap) with 0 by lia. reflexivity.
Qed.

Lemma length_appendCapped (cap : nat) (data : list Sample) (s : Sample) :
  List.length data <= cap ->
  List.length (appendCapped cap data s) <= cap.
Proof.
  intros Hle. rewrite appendCapped_lastn, length_lastn by assumption. lia.
Qed.

Lemma appendAll_lastn (cap : nat) (ss data : list Sample) :
  List.length data <= cap ->
  appendAll cap data ss = lastn cap (data ++ ss).
Proof.
  revert data. induction ss as [|s ss IH]; intros data Hle.
  - simpl. rewrite app_nil_r. symmetry. now apply lastn_all.
  - change (appendAll cap data (s :: ss))
      with (appendAll cap (appendCapped cap data s) ss).
    rewrite IH by now apply length_appendCapped.
    rewrite appendCapped_lastn by assumption.
    rewrite lastn_app_lastn, <- app_assoc. reflexivity.
Qed.

(** The live update of one array is such an append, with the cap
    of the source; and the windows [loadHistoricalData] generates start
    below it. *)
Lemma updateParam_appends (now : Z) (r1 r2 : Q) (data : list Sample)
  (l : Sample) :
  latest data = Some l ->
  updateParam now r1 r2 data
  = Some (appendCapped retentionCap data
            (mkSample now (value l + (r1 - 0.5) * liveNoiseAmplitude)%Q
               (value l + (r1 - 0.5) * liveNoiseAmplitude
                + (r2 - 0.5) * predictedNoiseAmplitude)%Q)).
Proof. unfold updateParam. now intros ->. Qed.

Lemma hours_below_cap (forecastRange : string) :
  hours forecastRange <= retentionCap.
Proof.
  unfold hours, retentionCap.
  destruct (String.eqb forecastRange "24h"); [lia|].
  destruct (String.eqb forecastRange "7d"); lia.
Qed.

(** C6 (counterexample). The arrays [simulateTrainingEpoch] pushes to
    are series without a cap: after eleven trainings run to completion,
    1100 appends, the accuracy and the loss array of the model hold
    their 8 seed entries and all 1100 appended ones, not the last 1000;
    nothing has been evicted from the front. *)
Lemma training_series_grow_past_the_cap :
  List.length (accuracy (modelData Scenarios.eleven_trainings otolith))
  = 8 + (retentionCap + 100)
  /\ List.length (loss (modelData Scenarios.eleven_trainings otolith))
     = 8 + (retentionCap + 100)
  /\ firstn 8 (accuracy (modelData Scenarios.eleven_trainings otolith))
     = accuracy (seed otolith)
  /\ firstn 8 (loss (modelData Scenarios.eleven_trainings otolith))
     = loss (seed otolith)
  /\ List.length (accuracy (modelData Scenarios.eleven_trainings otolith))
     <> retentionCap.
Proof.
  assert (Ha : List.length
                 (accuracy (modelData Scenarios.eleven_trainings otolith))
               = 8 + (retentionCap + 100)) by (vm_compute; reflexivity).
  split; [exact Ha|].
  split; [vm_compute; reflexivity|].
  split; [vm_compute; reflexivity|].
  split; [vm_compute; reflexivity|].
  rewrite Ha. unfold retentionCap. lia.
Qed.

(** C6 (as amended). A buffer of the oceanographic store that starts
    within the cap (as every generated window does) and receives [retentionCap + k] appends has length exactly
    [retentionCap] (1000) and holds exactly the last [retentionCap] of the
    appended samples, in the order they were appended: the first [k] of
    them, and everything older, have been evicted from the front. *)
Theorem fifo_eviction (data ss : list Sample) (k : nat) :
  List.length data <= retentionCap ->
  List.length ss = retentionCap + k ->
  retentionCap = 1000
  /\ List.length (appendAll retentionCap data ss) = retentionCap
  /\ appendAll retentionCap data ss = lastn retentionCap ss
  /\ appendAll retentionCap data ss = skipn k ss.
Proof.
  intros Hle Hlen.
  assert (E : appendAll retentionCap data ss = lastn retentionCap ss).
  { rewrite appendAll_lastn by assumption. apply lastn_app_long. lia. }
  split; [reflexivity|]. rewrite E. split; [|split; [reflexivity|]].
  - rewrite length_lastn. lia.
  - unfold lastn. f_equal. lia.
Qed.

Lemma fifo_eviction_witness :
  retentionCap = 1000
  /\ List.length (appendAll retentionCap [sampleAt (-1)] (ramp 1001))
     = retentionCap
  /\ appendAll retentionCap [sampleAt (-1)] (ramp 1001)
     = lastn retentionCap (ramp 1001)
  /\ appendAll retentionCap [sampleAt (-1)] (ramp 1001)
     = skipn 1 (ramp 1001).
Proof.
  apply (fifo_eviction [sampleAt (-1)] (ramp 1001) 1).
  - unfold retentionCap. simpl. lia.
  - vm_compute. reflexivity.
Defined.

(** ** The live update is a random walk *)

Lemma latest_snoc (data : list Sample) (s : Sample) :
  latest (data ++ [s]) = Some s.
Proof.
  unfold latest. rewrite length_app. simpl.
  rewrite nth_error_app2 by lia.
  replace (List.length data + 1 - 1 - List.length data) with 0 by lia.
  reflexivity.
Qed.

Lemma latest_appendCapped (cap : nat) (data : list Sample) (s : Sample) :
  1 <= cap -> latest (appendCapped cap data s) = Some s.
Proof.
  intros Hcap. unfold appendCapped. rewrite length_app. simpl.
  destruct (Nat.ltb_spec cap (List.length data + 1)) as [Hlt|Hge].
  - destruct data as [|x data]; [simpl in Hlt; lia|].
    simpl. apply latest_snoc.
  - apply latest_snoc.
Qed.

Lemma latest_nonempty (data : list Sample) :
  data <> [] -> exists l, latest data = Some l.
Proof.
  intros Hne. destruct (exists_last Hne) as (d & l & ->).
  exists l. apply latest_snoc.
Qed.

(** The whole pass: every array gets its own two draws, in key order. *)
Lemma updateCurrentValues_each (now : Z) (rnd : nat -> Q) (hd : Store) :
  forall d,
    Forall (fun kd => snd kd <> []) hd ->
    exists hd',
      updateCurrentValues now rnd d hd = Done hd' (d + 2 * List.length hd)
      /\ forall i key data,
           nth_error hd i = Some (key, data) ->
           exists data',
             nth_error hd' i = Some (key, data')
             /\ updateParam now (rnd (d + 2 * i)) (rnd (S (d + 2 * i))) data
                = Some data'.
Proof.
  induction hd as [|[k data] rest IH]; intros d Hall.
  - exists []. simpl. rewrite Nat.add_0_r. split; [reflexivity|].
    intros [|i] key data H; discriminate H.
  - inversion Hall as [|? ? Hne Hrest]; subst. simpl in Hne.
    destruct (latest_nonempty data Hne) as [l Hl].
    destruct (IH (S (S d)) Hrest) as (rest' & Hrun & Heach).
    cbn [updateCurrentValues List.length].
    rewrite (updateParam_appends now _ _ data l Hl), Hrun.
    eexists. split.
    + f_equal. lia.
    + intros [|i] key data0 H; simpl in H.
      * injection H as <- <-. eexists. split; [reflexivity|].
        rewrite Nat.mul_0_r, Nat.add_0_r.
        now rewrite (updateParam_appends now _ _ data l Hl).
      * destruct (Heach i key data0 H) as (data' & H1 & H2).
        exists data'. split; [exact H1|].
        replace (d + 2 * S i) with (S (S d) + 2 * i) by lia. exact H2.
Qed.

(** The amplitudes of [Profile.noiseAmplitude] are those of the
    generated values. *)
Lemma noiseAmplitude_of_generation (E : OceanMore.Engine) (ts : Z) (i : nat)
  (r r' : Q) :
  (value (OceanMore.temperatureSample E ts i r)
   == 28.5 + OceanMore.wave E i 24 * 1.5 + OceanMore.wave E i (24 * 365) * 2
      + (r - 0.5) * Profile.noiseAmplitude "temperature")%Q
  /\ (value (OceanMore.salinitySample E ts i r r')
      == 34.2 + OceanMore.wave E i (24 * 7) * 0.5
         + (r - 0.5) * Profile.noiseAmplitude "salinity")%Q
  /\ value (OceanMore.chlorophyllSample E ts i r r')
     = Qmax 0.1 (2.1 + OceanMore.wave E i (24 * 30) * 1.2
                 + (r - 0.5) * Profile.noiseAmplitude "chlorophyll")%Q
  /\ (value (OceanMore.phSample E ts i r r')
      == 8.1 + OceanMore.wave E i (24 * 14) * 0.15
         + (r - 0.5) * Profile.noiseAmplitude "ph")%Q
  /\ (value (OceanMore.oxygenSample E ts i r r')
      == 6.8 + OceanMore.wave E i 24 * 0.8
         + (r - 0.5) * Profile.noiseAmplitude "oxygen")%Q.
Proof.
  change (Profile.noiseAmplitude "temperature") with 0.8%Q.
  change (Profile.noiseAmplitude "salinity") with 0.3%Q.
  change (Profile.noiseAmplitude "chlorophyll") with 0.8%Q.
  change (Profile.noiseAmplitude "ph") with 0.1%Q.
  change (Profile.noiseAmplitude "oxygen") with 0.4%Q.
  unfold OceanMore.temperatureSample, OceanMore.salinitySample,
    OceanMore.chlorophyllSample, OceanMore.phSample, OceanMore.oxygenSample.
  cbn [value]. repeat split; reflexivity.
Qed.

(** C5 (counterexample). The step of a tick is not the configured noise
    amplitude.  In the store, the temperature array (generated with
    amplitude 0.8) whose latest value is 2 receives, for the draw 1/4,
    the value 2 - 0.05 and not 2 - 0.2: the live update steps by 0.2 for
    every parameter.  In [simulateTrainingEpoch], for the draw 1/2 the
    appended accuracy is the latest one plus 0.002, which is
    [latest + (r - 1/2) * amp] for no [amp] at all: the step is not
    centred. *)
Lemma tick_step_is_not_the_configured_amplitude :
  (exists l s,
      latest (ramp 3) = Some l
      /\ updateCurrentValues 7 (rnd_const (1#4)) 0
           [("temperature"%string, ramp 3)]
         = Done [("temperature"%string, ramp 3 ++ [s])] 2
      /\ (value s == value l - 0.05)%Q
      /\ (Profile.claimedValue (Profile.noiseAmplitude "temperature")
            (value l) (1#4)
          == value l - 0.2)%Q
      /\ ~ (value s
            == Profile.claimedValue (Profile.noiseAmplitude "temperature")
                 (value l) (1#4))%Q)
  /\ (exists b a,
         last (accuracy (modelData (startTraining (init (rnd_const (1#2))))
                                   otolith)) NaN
         = Num b
         /\ last (accuracy
                    (modelData (tick (startTraining (init (rnd_const (1#2)))))
                               otolith)) NaN
            = Num a
         /\ (a == b + 0.002)%Q
         /\ forall amp : Q, ~ (a == Profile.claimedValue amp b (1#2))%Q).
Proof.
  split.
  - exists (sampleAt 2),
      (mkSample 7 (inject_Z 2 + ((1#4) - 0.5) * liveNoiseAmplitude)%Q
         (inject_Z 2 + ((1#4) - 0.5) * liveNoiseAmplitude
          + ((1#4) - 0.5) * predictedNoiseAmplitude)%Q).
    split; [reflexivity|]. split; [reflexivity|].
    split; [vm_compute; reflexivity|].
    split; [vm_compute; reflexivity|].
    intros H. vm_compute in H. discriminate H.
  - exists 0.942%Q, (Qmin 0.98 (0.942 + ((1#2) - 0.3) * 0.01))%Q.
    split; [reflexivity|]. split; [vm_compute; reflexivity|].
    split; [vm_compute; reflexivity|].
    intros amp H. unfold Profile.claimedValue in H.
    assert (E : (Qmin 0.98 (0.942 + ((1#2) - 0.3) * 0.01) == 0.944)%Q)
      by (vm_compute; reflexivity).
    rewrite E in H. lra.
Qed.

(** C5 (as amended). One pass of the live update over a store whose
    arrays are non-empty completes and, for the array at every position
    [i], appends one sample whose observed value is the latest stored
    observed value plus [(r - 1/2) * amp], where [r] is the random draw
    made for that array and [amp] is the step of the update, 0.2 for
    every parameter; the perturbation hence lies in [[-amp/2, amp/2)]
    and no sinusoid enters it. *)
Theorem live_update_is_random_walk (now : Z) (rnd : nat -> Q) (d : nat)
  (hd : Store) :
  unitInterval rnd ->
  Forall (fun kd => snd kd <> []) hd ->
  (liveNoiseAmplitude == 2 # 10)%Q
  /\ exists hd',
       updateCurrentValues now rnd d hd = Done hd' (d + 2 * List.length hd)
       /\ forall i key data,
            nth_error hd i = Some (key, data) ->
            exists l data' s,
              latest data = Some l
              /\ nth_error hd' i = Some (key, data')
              /\ latest data' = Some s
              /\ timestamp s = now
              /\ (value s == value l + (rnd (d + 2 * i)%nat - (1#2))
                                        * liveNoiseAmplitude)%Q
              /\ (- (liveNoiseAmplitude / 2) <= value s - value l)%Q
              /\ (value s - value l < liveNoiseAmplitude / 2)%Q.
Proof.
  intros Hrnd Hall. split; [reflexivity|].
  destruct (updateCurrentValues_each now rnd hd d Hall) as (hd' & Hrun & Heach).
  exists hd'. split; [exact Hrun|].
  intros i key data Hi.
  destruct (Heach i key data Hi) as (data' & Hi' & Hup).
  assert (Hne : data <> []).
  { apply nth_error_In in Hi. rewrite Forall_forall in Hall.
    exact (Hall _ Hi). }
  destruct (latest_nonempty data Hne) as [l Hl].
  rewrite (updateParam_appends now _ _ data l Hl) in Hup.
  injection Hup as <-.
  eexists l, _, _. split; [exact Hl|]. split; [exact Hi'|].
  split; [apply latest_appendCapped; unfold retentionCap; lia|].
  destruct (Hrnd (d + 2 * i)) as [H0 H1].
  cbn [value timestamp]. change (i + (i + 0)) with (2 * i).
  unfold liveNoiseAmplitude, Qdiv. change (/ 2)%Q with (1#2)%Q.
  repeat split; lra.
Qed.

Lemma live_update_is_random_walk_witness :
  (liveNoiseAmplitude == 2 # 10)%Q
  /\ exists hd',
       updateCurrentValues 7 (rnd_const 0.25) 0 smallStore
       = Done hd' (0 + 2 * List.length smallStore)
       /\ forall i key data,
            nth_error smallStore i = Some (key, data) ->
            exists l data' s,
              latest data = Some l
              /\ nth_error hd' i = Some (key, data')
              /\ latest data' = Some s
              /\ timestamp s = 7%Z
              /\ (value s == value l
                             + (rnd_const 0.25 (0 + 2 * i)%nat - (1#2))
                               * liveNoiseAmplitude)%Q
              /\ (- (liveNoiseAmplitude / 2) <= value s - value l)%Q
              /\ (value s - value l < liveNoiseAmplitude / 2)%Q.
Proof.
  apply (live_update_is_random_walk 7 (rnd_const 0.25) 0 smallStore).
  - intros n. unfold rnd_const. split; lra.
  - unfold smallStore, parameters. simpl.
    repeat constructor; discriminate.
Defined.

(** ** The historical / forecast split *)

Lemma splitPoint_div (data : list Sample) :
  splitPoint data = (Z.of_nat (List.length data) * 7 / 10)%Z.
Proof. reflexivity. Qed.

Lemma splitPoint_bounds (data : list Sample) :
  2 <= List.length data ->
  (1 <= splitPoint data <= Z.of_nat (List.length data))%Z.
Proof.
  rewrite splitPoint_div.
  pose proof (Z.div_mod (Z.of_nat (List.length data) * 7) 10).
  pose proof (Z.mod_pos_bound (Z.of_nat (List.length data) * 7) 10).
  lia.
Qed.

(** In binary64 the product can fall just below a whole number, which
    lowers the split point by one: the 30-day window of 720 samples is
    split at 503, not 504. *)
Lemma split64_of_720 :
  split64 720 = 503%Z /\ splitPoint (ramp 720) = 504%Z.
Proof. split; vm_compute; reflexivity. Qed.

(** It stays within the snapshot for every length a buffer can have. *)
Lemma split64_bounds_all :
  forallb (fun n => (1 <=? split64 n)%Z && (split64 n <=? Z.of_nat n)%Z)
          (seq 2 (retentionCap - 1)) = true.
Proof. vm_compute. reflexivity. Qed.

Lemma splitPoint64_bounds (data : list Sample) :
  2 <= List.length data <= retentionCap ->
  (1 <= splitPoint64 data <= Z.of_nat (List.length data))%Z.
Proof.
  intros Hlen. pose proof split64_bounds_all as H.
  rewrite forallb_forall in H.
  specialize (H (List.length data)).
  rewrite in_seq, andb_true_iff, !Z.leb_le in H.
  apply H. unfold retentionCap in *. lia.
Qed.

Section Slice.

Context {A : Type}.
Implicit Types l : list A.

Lemma slice_prefix l (e : Z) :
  (0 <= e <= Z.of_nat (List.length l))%Z ->
  slice l 0 (Some e) = firstn (Z.to_nat e) l.
Proof.
  intros He. unfold slice, relativeIndex.
  destruct (Z.ltb_spec e 0); [lia|]. simpl (0 <? 0)%Z. cbv iota.
  rewrite !Z.min_l by lia. rewrite Z.sub_0_r. reflexivity.
Qed.

Lemma slice_suffix l (k : Z) :
  (0 <= k <= Z.of_nat (List.length l))%Z ->
  slice l k None = skipn (Z.to_nat k) l.
Proof.
  intros Hk. unfold slice, relativeIndex.
  destruct (Z.ltb_spec k 0); [lia|].
  rewrite Z.min_l by lia.
  apply firstn_all2. rewrite length_skipn. lia.
Qed.

(** A window that ends one past position [n] and a window that starts at
    position [n] share exactly the element at [n]. *)
Lemma firstn_skipn_overlap l (n : nat) :
  n < List.length l ->
  exists x,
    l = firstn n l ++ x :: skipn (S n) l
    /\ firstn (S n) l = firstn n l ++ [x]
    /\ skipn n l = x :: skipn (S n) l.
Proof.
  revert l. induction n as [|n IH]; intros [|a l] Hlt; simpl in Hlt; try lia.
  - exists a. repeat split; reflexivity.
  - destruct (IH l) as (x & H1 & H2 & H3); [lia|].
    exists x. cbn [firstn skipn app].
    repeat split; [f_equal; exact H1|f_equal; exact H2|exact H3].
Qed.

End Slice.

(** Whatever the split point, as long as it lies within the snapshot and
    is at least 1, the two slices overlap in exactly one sample. *)
Lemma overlap_at (sp : Z) (data : list Sample) :
  (1 <= sp <= Z.of_nat (List.length data))%Z ->
  overlapByOne data (historicalAt sp data) (forecastAt sp data).
Proof.
  intros Hsp. unfold historicalAt, forecastAt, overlapByOne.
  rewrite slice_prefix, slice_suffix by lia.
  set (n := Z.to_nat (sp - 1)).
  replace (Z.to_nat sp) with (S n) by lia.
  destruct (firstn_skipn_overlap data n) as (x & E1 & E2 & E3); [lia|].
  exists (firstn n data), x, (skipn (S n) data). auto.
Qed.

(** C7 (counterexample). On a snapshot of one sample the historical part
    is empty and the forecast part holds the sample, in exact arithmetic
    and in binary64 alike, not the other way round. *)
Lemma split_of_single_sample :
  historical64 [sampleAt 0] = []
  /\ forecast64 [sampleAt 0] = [sampleAt 0]
  /\ ~ (historical64 [sampleAt 0] = [sampleAt 0]
        /\ forecast64 [sampleAt 0] = [])
  /\ ~ (historical [sampleAt 0] = [sampleAt 0] /\ forecast [sampleAt 0] = []).
Proof.
  split; [reflexivity|]. split; [reflexivity|].
  split; intros [H _]; discriminate H.
Qed.

(** C7 (as amended). On a snapshot of at least two samples the
    historical and the forecast parts overlap in exactly one sample: the
    snapshot is [pre ++ s :: post], the historical part is [pre ++ [s]]
    and the forecast part is [s :: post].  This holds with the split
    point computed in exact arithmetic for every length, and with the
    split point computed in binary64 for every length up to the
    retention cap.  On the empty snapshot both parts are empty.  On a
    snapshot of one sample the historical part is empty and the forecast
    part holds that sample. *)
Theorem split_overlaps_by_one (data : list Sample) :
  (2 <= List.length data ->
   overlapByOne data (historical data) (forecast data))
  /\ (2 <= List.length data <= retentionCap ->
      overlapByOne data (historical64 data) (forecast64 data))
  /\ (historical [] = [] /\ forecast [] = []
      /\ historical64 [] = [] /\ forecast64 [] = [])
  /\ (forall s : Sample,
        historical [s] = [] /\ forecast [s] = [s]
        /\ historical64 [s] = [] /\ forecast64 [s] = [s]).
Proof.
  split; [|split; [|split]].
  - intros Hlen. apply overlap_at. now apply splitPoint_bounds.
  - intros Hlen. apply overlap_at. now apply splitPoint64_bounds.
  - repeat split; reflexivity.
  - intros s. repeat split; reflexivity.
Qed.

Lemma split_overlaps_by_one_witness :
  overlapByOne (ramp 10) (historical (ramp 10)) (forecast (ramp 10))
  /\ overlapByOne (ramp 10) (historical64 (ramp 10)) (forecast64 (ramp 10)).
Proof.
  destruct (split_overlaps_by_one (ramp 10)) as (H1 & H2 & _).
  split; [apply H1|apply H2]; unfold retentionCap; simpl; lia.
Defined.

(* ===================================================================== *)
(** * Loading the dashboard figures                                       *)
(* ===================================================================== *)

Import Dashboard.

(** The loop over the KPI table cannot throw; it queues one animation
    per element that is present, in table order. *)
Lemma forEachEntry_animations (es : list (string * Z)) :
  forall p,
    forEachEntry es p
    = Ok tt (mkPage (elements p) (overlayDisplay p)
               (animations p ++ filter (fun e => present (fst e) p) es)
               (console p)).
Proof.
  induction es as [|[id v] rest IH]; intros [el ov an co].
  - simpl. unfold ret. now rewrite app_nil_r.
  - cbn [forEachEntry]. unfold bind.
    destruct (present id (mkPage el ov an co)) eqn:Hp.
    + unfold animateValue. rewrite IH. cbn [filter fst].
      rewrite Hp. cbn [elements overlayDisplay animations console].
      rewrite <- app_assoc. reflexivity.
    + unfold ret. rewrite IH. cbn [filter fst]. rewrite Hp. reflexivity.
Qed.

Lemma updateKPIsWithMockData_animations (p : Page) :
  updateKPIsWithMockData p
  = Ok tt (mkPage (elements p) (overlayDisplay p)
             (animations p ++ kpiAnimations mockData p) (console p)).
Proof. apply forEachEntry_animations. Qed.

(** A failed fetch ends in the mock data, without an exception. *)
Lemma updateDashboardKPIs_failed (f : fetchOutcome) (p : Page) :
  fetchFailed f ->
  exists c,
    updateDashboardKPIs f p
    = Ok tt (mkPage (elements p) (overlayDisplay p)
               (animations p ++ kpiAnimations mockData p) c).
Proof.
  intros [->|[body ->]]; unfold updateDashboardKPIs, try_catch.
  - unfold throw, bind, log.
    rewrite updateKPIsWithMockData_animations. eexists. reflexivity.
  - cbn [negb]. rewrite updateKPIsWithMockData_animations.
    eexists. reflexivity.
Qed.

(** C8. When the fetch of the dashboard statistics fails (the request is
    rejected, or the response is not OK), [loadInitialData] returns
    normally, the figures animated are those of the fixed mock tuple
    (5247 species, 8 models, 15 stations, 1847 predictions), exactly as if
    the server had answered with that tuple, and the loading overlay is
    hidden again. *)
Theorem stats_failure_falls_back_to_mock (f : fetchOutcome) (p : Page) :
  fetchFailed f -> present "loading-overlay" p = true ->
  mockData = mkStats 5247 8 15 1847
  /\ exists p',
       loadInitialData f p = Ok tt p'
       /\ animations p' = animations p ++ kpiAnimations mockData p
       /\ overlayDisplay p' = "none"%string
       /\ elements p' = elements p
       /\ exists p'',
            loadInitialData (FetchResponse true (JsonStats mockData)) p
            = Ok tt p''
            /\ animations p'' = animations p'
            /\ overlayDisplay p'' = overlayDisplay p'.
Proof.
  intros Hf Hov. split; [reflexivity|].
  assert (Hshow : forall d q,
             elements q = elements p ->
             setOverlay d q
             = Ok tt (mkPage (elements q) d (animations q) (console q))).
  { intros d q Hq. unfold setOverlay, present in *. now rewrite Hq, Hov. }
  unfold loadInitialData, try_catch, bind, showLoading, hideLoading.
  rewrite (Hshow _ p eq_refl).
  destruct (updateDashboardKPIs_failed f
              (mkPage (elements p) "flex" (animations p) (console p)) Hf)
    as [c Hc].
  rewrite Hc, Hshow by reflexivity.
  eexists. split; [reflexivity|]. repeat split.
  unfold updateDashboardKPIs, try_catch. cbn [negb].
  unfold updateKPIsWithData. rewrite forEachEntry_animations.
  rewrite Hshow by reflexivity.
  eexists. split; [reflexivity|]. split; reflexivity.
Qed.

Lemma stats_failure_falls_back_to_mock_witness :
  mockData = mkStats 5247 8 15 1847
  /\ exists p',
       loadInitialData FetchRejects indexPage = Ok tt p'
       /\ animations p' = animations indexPage ++ kpiAnimations mockData indexPage
       /\ overlayDisplay p' = "none"%string
       /\ elements p' = elements indexPage
       /\ exists p'',
            loadInitialData (FetchResponse true (JsonStats mockData)) indexPage
            = Ok tt p''
            /\ animations p'' = animations p'
            /\ overlayDisplay p'' = overlayDisplay p'.
Proof.
  apply (stats_failure_falls_back_to_mock FetchRejects indexPage).
  - left. reflexivity.
  - reflexivity.
Defined.

(* ===================================================================== *)
(** * More on the training scheduler                                      *)
(* ===================================================================== *)

Import TrainingMore.

(** Case analysis on the stored handle: [null], the falsy handle 0, or
    a positive handle. *)
Ltac case_handle ti :=
  let h := fresh "h" in
  destruct ti as [[|h]|];
  [ change (Nat.eqb 0 0) with true
  | change (Nat.eqb (S h) 0) with false
  | ];
  unfold_training.

Lemma reachable_induction (P : State -> Prop) :
  (forall rnd, P (init rnd)) ->
  (forall s e, reachable s -> P s -> P (step s e)) ->
  forall s, reachable s -> P s.
Proof.
  intros Hinit Hstep s (rnd & evs & ->).
  induction evs as [|e evs IH] using rev_ind; [apply Hinit|].
  rewrite run_snoc. apply Hstep; auto. now exists rnd, evs.
Qed.

(** ** The log container *)

Lemma length_addTrainingLog (e : logEntry) (s : State) :
  List.length (logs (addTrainingLog e s)) <= 20.
Proof.
  unfold addTrainingLog, set_logs. cbn [logs].
  rewrite length_firstn. apply Nat.le_min_l.
Qed.

Lemma simulate_logs_short (s : State) :
  List.length (logs s) <= 20 ->
  List.length (logs (simulateTrainingEpoch s)) <= 20.
Proof.
  destruct s as [cm it ti ce te md tm nt rn dr lg al].
  unfold_training. intros Hlg.
  destruct (Z.rem (ce + 1) 10 =? 0)%Z; unfold_training;
    destruct (ce + 1 >=? te)%Z; unfold_training;
    try (case_handle ti);
    rewrite ?length_firstn; lia.
Qed.

Lemma step_logs_short (s : State) (e : event) :
  Inv s -> List.length (logs s) <= 20 ->
  List.length (logs (step s e)) <= 20.
Proof.
  intros HI Hlg. destruct e; cbn [step].
  - destruct s as [cm it ti ce te md tm nt rn dr lg al].
    unfold_training. destruct it; unfold_training;
      rewrite ?length_firstn; lia.
  - destruct s as [cm it ti ce te md tm nt rn dr lg al].
    unfold_training. destruct it; simpl negb; cbv iota; unfold_training;
      try (case_handle ti);
      rewrite ?length_firstn; lia.
  - destruct s as [cm it ti ce te md tm nt rn dr lg al].
    unfold_training. case_handle ti;
      rewrite ?length_firstn; lia.
  - destruct (tick_cases s HI) as [[_ ->]|(h & _ & _ & _ & ->)]; auto.
    now apply simulate_logs_short.
  - exact Hlg.
Qed.

(** X1. In every reachable state the log container holds at most 20
    entries: every method that writes a line goes through
    [addTrainingLog], which drops the oldest lines beyond 20. *)
Theorem log_never_exceeds_20 (s : State) :
  reachable s -> List.length (logs s) <= 20.
Proof.
  revert s. apply reachable_induction.
  - intros rnd. simpl. lia.
  - intros s e Hr IH. apply step_logs_short; auto using reachable_Inv.
Qed.

Lemma log_never_exceeds_20_witness :
  List.length (logs (ticks 100 (startTraining (init (rnd_const 0.5))))) <= 20.
Proof.
  apply log_never_exceeds_20. apply reachable_ticks.
  apply (reachable_step _ EStart). apply reachable_init.
Defined.

(** ** The metric arrays over whole runs *)

(** An event leaves the arrays of a model as they are or adds one entry
    to each. *)
Lemma step_modelData (s : State) (e : event) (m : model) :
  Inv s ->
  exists a l,
    accuracy (modelData (step s e) m) = accuracy (modelData s m) ++ a
    /\ loss (modelData (step s e) m) = loss (modelData s m) ++ l
    /\ List.length a = List.length l.
Proof.
  intros HI.
  assert (Hsame : modelData (step s e) = modelData s ->
                  exists a l,
                    accuracy (modelData (step s e) m)
                    = accuracy (modelData s m) ++ a
                    /\ loss (modelData (step s e) m)
                       = loss (modelData s m) ++ l
                    /\ List.length a = List.length l).
  { intros ->. exists [], []. now rewrite !app_nil_r. }
  destruct e; cbn [step] in *.
  - apply Hsame, start_modelData.
  - apply Hsame, pause_modelData.
  - apply Hsame, stop_modelData.
  - destruct (tick_cases s HI) as [[_ E]|(h & _ & _ & _ & E)]; rewrite E in *.
    + now apply Hsame.
    + rewrite simulate_modelData.
      destruct (model_eqb m (currentModel s)) eqn:Hm.
      * apply model_eqb_eq in Hm. subst m. cbn [accuracy loss].
        eexists [_], [_]. repeat split.
      * exists [], []. now rewrite !app_nil_r.
  - now apply Hsame.
Qed.

(** X2. In every reachable state the accuracy and the loss array of
    each model have the same length, at least the 8 seed entries: the
    two are only ever pushed together. *)
Theorem metric_arrays_stay_aligned (s : State) (m : model) :
  reachable s ->
  List.length (accuracy (modelData s m)) = List.length (loss (modelData s m))
  /\ 8 <= List.length (accuracy (modelData s m)).
Proof.
  revert s. apply reachable_induction.
  - intros rnd. destruct m; simpl; lia.
  - intros s e Hr [IH1 IH2].
    destruct (step_modelData s e m (reachable_Inv _ Hr)) as (a & l & -> & -> & H).
    rewrite !length_app. lia.
Qed.

Lemma metric_arrays_stay_aligned_witness :
  List.length (accuracy (modelData after_one_epoch otolith))
  = List.length (loss (modelData after_one_epoch otolith))
  /\ 8 <= List.length (accuracy (modelData after_one_epoch otolith)).
Proof.
  apply metric_arrays_stay_aligned.
  exists (rnd_const 0.5), [EStart; ETick]. reflexivity.
Defined.

Lemma extends_refl {A : Type} (l : list A) : extends l l.
Proof. exists []. now rewrite app_nil_r. Qed.

Lemma extends_trans {A : Type} (l1 l2 l3 : list A) :
  extends l1 l2 -> extends l2 l3 -> extends l1 l3.
Proof.
  intros [e1 ->] [e2 ->]. exists (e1 ++ e2). now rewrite app_assoc.
Qed.

(** X3. Nothing that can happen to an instance removes or rewrites a
    metric: after any further events, stops and restarts included, each
    array of each model still begins with all the entries it had. *)
Theorem metrics_history_only_grows (s : State) (evs : list event) (m : model) :
  reachable s ->
  extends (accuracy (modelData s m)) (accuracy (modelData (run evs s) m))
  /\ extends (loss (modelData s m)) (loss (modelData (run evs s) m)).
Proof.
  revert s. induction evs as [|e evs IH]; intros s Hr.
  - split; apply extends_refl.
  - change (run (e :: evs) s) with (run evs (step s e)).
    destruct (IH (step s e) (reachable_step s e Hr)) as [Ha Hl].
    destruct (step_modelData s e m (reachable_Inv _ Hr)) as (a & l & Ea & El & _).
    split.
    + eapply extends_trans; [|exact Ha]. now exists a.
    + eapply extends_trans; [|exact Hl]. now exists l.
Qed.

Lemma metrics_history_only_grows_witness :
  extends (accuracy (modelData after_one_epoch otolith))
          (accuracy (modelData (run [EStop; EStart; ETick] after_one_epoch)
                               otolith))
  /\ extends (loss (modelData after_one_epoch otolith))
             (loss (modelData (run [EStop; EStart; ETick] after_one_epoch)
                              otolith)).
Proof.
  apply metrics_history_only_grows.
  exists (rnd_const 0.5), [EStart; ETick]. reflexivity.
Defined.

(** ** The epoch counter and the timer *)

Lemma step_epoch_bounds (s : State) (e : event) :
  Inv s -> (0 < totalEpochs s)%Z ->
  (0 <= currentEpoch s <= totalEpochs s)%Z
  /\ (trainingInterval s <> None -> (currentEpoch s < totalEpochs s)%Z) ->
  (0 <= currentEpoch (step s e) <= totalEpochs (step s e))%Z
  /\ (trainingInterval (step s e) <> None ->
      (currentEpoch (step s e) < totalEpochs (step s e))%Z).
Proof.
  intros HI HT [Hb Hl]. destruct e; cbn [step].
  - destruct (isTraining s) eqn:Hit.
    + rewrite start_running_noop by assumption. auto.
    + destruct (start_fields s HI Hit) as (_ & _ & _ & _ & -> & -> & _).
      split; intros; lia.
  - destruct (pause_fields s HI) as (-> & _ & _ & _ & -> & -> & _).
    split; [assumption|congruence].
  - destruct (stop_fields s HI) as (-> & _ & _ & _ & -> & -> & _).
    split; [assumption|congruence].
  - destruct (tick_cases s HI) as [[_ ->]|(h & Hti & Htm & Hh & ->)]; auto.
    assert (Hlt : (currentEpoch s < totalEpochs s)%Z)
      by (apply Hl; congruence).
    destruct (simulate_epoch s) as (-> & -> & _ & _).
    destruct (Z_lt_le_dec (currentEpoch s + 1) (totalEpochs s)) as [Hc|Hc].
    + destruct (simulate_continue s Hc) as (_ & -> & _ & _).
      split; intros; lia.
    + destruct (simulate_complete s h Htm Hti Hh Hc) as (_ & -> & _ & _).
      split; [lia|congruence].
  - auto.
Qed.

Lemma reachable_epoch_bounds (s : State) :
  reachable s ->
  (0 <= currentEpoch s <= totalEpochs s)%Z
  /\ (trainingInterval s <> None -> (currentEpoch s < totalEpochs s)%Z).
Proof.
  revert s. apply reachable_induction.
  - intros rnd. simpl. split; [lia|congruence].
  - intros s e Hr IH. apply step_epoch_bounds; auto using reachable_Inv.
    rewrite (reachable_totalEpochs s Hr). lia.
Qed.

(** X4. In every reachable state the epoch counter lies between 0 and
    the target, and while the interval is live it is strictly below the
    target: the tick that reaches the target also cancels the interval,
    so the counter never runs past it. *)
Theorem epoch_counter_stays_within_target (s : State) :
  reachable s ->
  (0 <= currentEpoch s <= totalEpochs s)%Z
  /\ (trainingInterval s <> None -> (currentEpoch s < totalEpochs s)%Z).
Proof.
  revert s. apply reachable_induction.
  - intros rnd. simpl. split; [lia|congruence].
  - intros s e Hr IH. apply step_epoch_bounds; auto using reachable_Inv.
    rewrite (reachable_totalEpochs s Hr). lia.
Qed.

Lemma epoch_counter_stays_within_target_witness :
  (0 <= currentEpoch after_one_epoch <= totalEpochs after_one_epoch)%Z
  /\ (trainingInterval after_one_epoch <> None ->
      (currentEpoch after_one_epoch < totalEpochs after_one_epoch)%Z).
Proof.
  apply epoch_counter_stays_within_target.
  exists (rnd_const 0.5), [EStart; ETick]. reflexivity.
Defined.

(** X5. In every reachable state at most one interval is live; a live
    interval is the one whose handle [trainingInterval] holds, and then
    the instance is training.  Without a stored handle no tick stream
    exists. *)
Theorem at_most_one_tick_stream (s : State) :
  reachable s ->
  (trainingInterval s = None /\ timers s = [])
  \/ (exists h, trainingInterval s = Some h /\ timers s = [h]
                /\ isTraining s = true).
Proof.
  intros Hr. pose proof (reachable_Inv _ Hr) as HI.
  destruct (trainingInterval s) as [h|] eqn:Hti.
  - right. exists h. destruct (Inv_running_timers s h HI Hti) as [Ht _].
    repeat split; auto.
    destruct (isTraining s) eqn:Hit; auto.
    destruct HI as (_ & _ & H3 & _). specialize (H3 Hit). congruence.
  - left. split; auto. now apply Inv_idle_timers.
Qed.

Lemma at_most_one_tick_stream_witness :
  (trainingInterval after_one_epoch = None /\ timers after_one_epoch = [])
  \/ (exists h, trainingInterval after_one_epoch = Some h
                /\ timers after_one_epoch = [h]
                /\ isTraining after_one_epoch = true).
Proof.
  apply at_most_one_tick_stream.
  exists (rnd_const 0.5), [EStart; ETick]. reflexivity.
Defined.

(** ** A paused training *)

Lemma paused_step (s : State) (e : event) :
  Inv s -> paused s -> e <> EStop ->
  paused (step s e)
  /\ scheduler (step s e) = scheduler s
  /\ modelData (step s e) = modelData s
  /\ alerts (step s e) = alerts s.
Proof.
  intros HI [Hit Hti] He.
  pose proof (Inv_idle_timers s HI Hti) as Htm.
  destruct e; cbn [step]; try congruence.
  - rewrite start_running_noop by assumption. repeat split; auto.
  - destruct (pause_fields s HI) as (P1 & P2 & P3 & P4 & P5 & P6 & P7).
    unfold paused, scheduler.
    rewrite P1, P2, P3, P4, P5, P6, P7, pause_modelData, Hit, Hti, Htm.
    repeat split; reflexivity.
  - rewrite tick_idle by assumption. repeat split; auto.
  - repeat split; auto.
Qed.

(** X6. Pausing is a dead end short of stopping: from a reachable
    paused state, whatever sequence of start clicks, pause clicks, timer
    periods and model selections follows, the training stays paused, the
    scheduler fields (epoch counter included) and the metric arrays stay
    as they are, and no alert is raised.  Only [stop()] leaves the
    state. *)
Theorem paused_until_stopped (s : State) (evs : list event) :
  reachable s -> paused s -> Forall (fun e => e <> EStop) evs ->
  paused (run evs s)
  /\ scheduler (run evs s) = scheduler s
  /\ modelData (run evs s) = modelData s
  /\ alerts (run evs s) = alerts s.
Proof.
  revert s. induction evs as [|e evs IH]; intros s Hr Hp Hall.
  - repeat split; auto; apply Hp.
  - inversion Hall as [|? ? He Hrest]; subst.
    change (run (e :: evs) s) with (run evs (step s e)).
    destruct (paused_step s e (reachable_Inv _ Hr) Hp He) as (P1 & P2 & P3 & P4).
    destruct (IH (step s e) (reachable_step s e Hr) P1 Hrest)
      as (Q1 & Q2 & Q3 & Q4).
    repeat split; try apply Q1; congruence.
Qed.

Lemma paused_until_stopped_witness :
  paused (run [EStart; ETick; EPause; ESelect lstm; ETick] paused_example)
  /\ scheduler (run [EStart; ETick; EPause; ESelect lstm; ETick] paused_example)
     = scheduler paused_example
  /\ modelData (run [EStart; ETick; EPause; ESelect lstm; ETick] paused_example)
     = modelData paused_example
  /\ alerts (run [EStart; ETick; EPause; ESelect lstm; ETick] paused_example)
     = alerts paused_example.
Proof.
  apply paused_until_stopped.
  - exists (rnd_const 0.5), [EStart; ETick; EPause]. reflexivity.
  - split; reflexivity.
  - repeat constructor; discriminate.
Defined.

(** X7. The completion alert is raised by the tick that takes the
    counter to the target and by nothing else: in a reachable state, an
    event appends the alert exactly when it is a timer period, the
    interval is live and the counter is one below the target; the counter
    then equals the target and the training is off.  Every other event
    leaves the alerts as they are. *)
Theorem completion_exactly_at_target (s : State) (e : event) :
  reachable s ->
  (e = ETick -> trainingInterval s <> None ->
   (currentEpoch s + 1 = totalEpochs s)%Z ->
   alerts (step s e) = alerts s ++ [completedAlert]
   /\ currentEpoch (step s e) = totalEpochs s
   /\ isTraining (step s e) = false)
  /\ (~ (e = ETick /\ trainingInterval s <> None
         /\ (currentEpoch s + 1 = totalEpochs s)%Z) ->
      alerts (step s e) = alerts s).
Proof.
  intros Hr. pose proof (reachable_Inv _ Hr) as HI.
  destruct (reachable_epoch_bounds s Hr) as [Hb Hl].
  split.
  - intros -> Hti He. cbn [step].
    destruct (tick_cases s HI) as [[Hn _]|(h & Hh & Htm & Hp & ->)];
      [congruence|].
    destruct (simulate_epoch s) as (E1 & _).
    destruct (simulate_complete s h Htm Hh Hp) as (C1 & _ & _ & C4); [lia|].
    repeat split; auto. lia.
  - intros Hnot. destruct e; cbn [step].
    + destruct (isTraining s) eqn:Hit.
      * now rewrite start_running_noop.
      * now apply start_fields.
    + now apply pause_fields.
    + now apply stop_fields.
    + destruct (tick_cases s HI) as [[_ ->]|(h & Hh & Htm & Hp & ->)]; auto.
      apply simulate_continue.
      assert (Hlt : (currentEpoch s < totalEpochs s)%Z)
        by (apply Hl; congruence).
      destruct (Z.eq_dec (currentEpoch s + 1) (totalEpochs s)) as [E|E];
        [|lia].
      exfalso. apply Hnot. repeat split; auto. congruence.
    + reflexivity.
Qed.

Lemma completion_exactly_at_target_witness :
  alerts (step (ticks 99 (startTraining (init (rnd_const 0.5)))) ETick)
  = alerts (ticks 99 (startTraining (init (rnd_const 0.5)))) ++ [completedAlert]
  /\ currentEpoch (step (ticks 99 (startTraining (init (rnd_const 0.5)))) ETick)
     = totalEpochs (ticks 99 (startTraining (init (rnd_const 0.5))))
  /\ isTraining (step (ticks 99 (startTraining (init (rnd_const 0.5)))) ETick)
     = false.
Proof.
  destruct (completion_exactly_at_target
              (ticks 99 (startTraining (init (rnd_const 0.5)))) ETick)
    as [H _].
  - apply reachable_ticks. apply (reachable_step _ EStart).
    apply reachable_init.
  - apply H; [reflexivity|vm_compute; discriminate|vm_compute; reflexivity].
Defined.

(** ** Selecting another model while a training runs *)

(** X26. A running training is not bound to the model it was started
    on: after a click on the card of model [m'] the next timer period
    appends its accuracy and its loss to the arrays of [m'], computed
    from the last entries of [m'], and leaves the arrays of every other
    model, the model started on included, as they were. *)
Theorem epoch_feeds_selected_model (s : State) (m' : model) :
  reachable s -> trainingInterval s <> None ->
  accuracy (modelData (run [ESelect m'; ETick] s) m')
  = accuracy (modelData s m')
    ++ [newAccuracyOf (last (accuracy (modelData s m')) NaN)
          (random s (draws s))]
  /\ loss (modelData (run [ESelect m'; ETick] s) m')
     = loss (modelData s m')
       ++ [newLossOf (last (loss (modelData s m')) NaN)
             (random s (S (draws s)))]
  /\ forall m, m <> m' ->
       modelData (run [ESelect m'; ETick] s) m = modelData s m.
Proof.
  intros Hr Hti.
  change (run [ESelect m'; ETick] s) with (tick (set_currentModel m' s)).
  assert (Hr1 : reachable (set_currentModel m' s))
    by apply (reachable_step s (ESelect m') Hr).
  destruct (tick_cases _ (reachable_Inv _ Hr1)) as [[Hn _]|(h & _ & _ & _ & ->)].
  - destruct s; cbn in Hn, Hti. congruence.
  - rewrite simulate_modelData. unfold baseAccuracyOf, baseLossOf.
    destruct s as [cm it ti ce te md tm nt rn dr lg al].
    cbn [set_currentModel currentModel modelData random draws
         isTraining trainingInterval currentEpoch totalEpochs timers
         nextTimer logs alerts].
    rewrite model_eqb_refl. cbn [accuracy loss].
    repeat split; try reflexivity.
    intros m Hne. destruct (model_eqb m m') eqn:E; [|reflexivity].
    apply model_eqb_eq in E. contradiction.
Qed.

Lemma epoch_feeds_selected_model_witness :
  accuracy (modelData (run [ESelect lstm; ETick] after_one_epoch) lstm)
  = accuracy (modelData after_one_epoch lstm)
    ++ [newAccuracyOf (last (accuracy (modelData after_one_epoch lstm)) NaN)
          (random after_one_epoch (draws after_one_epoch))]
  /\ loss (modelData (run [ESelect lstm; ETick] after_one_epoch) lstm)
     = loss (modelData after_one_epoch lstm)
       ++ [newLossOf (last (loss (modelData after_one_epoch lstm)) NaN)
             (random after_one_epoch (S (draws after_one_epoch)))]
  /\ forall m, m <> lstm ->
       modelData (run [ESelect lstm; ETick] after_one_epoch) m
       = modelData after_one_epoch m.
Proof.
  apply (epoch_feeds_selected_model after_one_epoch lstm).
  - exists (rnd_const 0.5), [EStart; ETick]. reflexivity.
  - vm_compute. discriminate.
Defined.

(* ===================================================================== *)
(** * More on loading the dashboard figures                               *)
(* ===================================================================== *)

Import DashboardMore.

Lemma setOverlay_present (d : string) (q : Page) :
  present "loading-overlay" q = true ->
  setOverlay d q = Ok tt (mkPage (elements q) d (animations q) (console q)).
Proof. unfold setOverlay. now intros ->. Qed.

Lemma updateDashboardKPIs_cases (f : fetchOutcome) (p : Page) :
  updateDashboardKPIs f p
  = Ok tt (mkPage (elements p) (overlayDisplay p)
             (animations p ++ kpiAnimations (effectiveData f) p)
             (console p ++ warnings f)).
Proof.
  destruct p as [el ov an co].
  destruct f as [|[|] [| |data]];
    unfold updateDashboardKPIs, try_catch, throw, bind, log,
      updateKPIsWithMockData, updateKPIsWithData;
    cbn [negb]; rewrite ?forEachEntry_animations;
    cbn [elements overlayDisplay animations console effectiveData warnings];
    rewrite ?app_nil_r; reflexivity.
Qed.

(** X8. With the loading overlay in the page, [loadInitialData] returns
    normally whatever the fetch does: the overlay ends hidden, the
    figures animated are the server's when the response is OK with a
    usable body and the mock tuple otherwise, and the console gets the
    "API not available" warning exactly when the fetch was rejected or an
    OK response had no usable body (a non-OK response falls back
    silently). *)
Theorem load_always_completes (f : fetchOutcome) (p : Page) :
  present "loading-overlay" p = true ->
  loadInitialData f p
  = Ok tt (mkPage (elements p) "none"
             (animations p ++ kpiAnimations (effectiveData f) p)
             (console p ++ warnings f)).
Proof.
  intros Hov.
  unfold loadInitialData, try_catch, bind, showLoading, hideLoading.
  rewrite (setOverlay_present _ p Hov), updateDashboardKPIs_cases.
  rewrite setOverlay_present by exact Hov. reflexivity.
Qed.

Lemma load_always_completes_witness :
  loadInitialData (FetchResponse true JsonNull) indexPage
  = Ok tt (mkPage (elements indexPage) "none"
             (animations indexPage
              ++ kpiAnimations (effectiveData (FetchResponse true JsonNull))
                               indexPage)
             (console indexPage ++ warnings (FetchResponse true JsonNull))).
Proof. apply load_always_completes. reflexivity. Defined.

(** X9. Without the loading overlay in the page, [loadInitialData]
    fails whatever the fetch would have done: [showLoading] throws before
    the statistics are requested, the handler logs the error and its own
    [hideLoading] throws again, so the call ends in a [TypeError] with no
    figure animated. *)
Theorem load_fails_without_overlay (f : fetchOutcome) (p : Page) :
  present "loading-overlay" p = false ->
  loadInitialData f p
  = Throw DomTypeError
      (mkPage (elements p) (overlayDisplay p) (animations p)
         (console p ++ [Error "Failed to load initial data:" DomTypeError])).
Proof.
  intros Hov. destruct p as [el ov an co].
  unfold loadInitialData, try_catch, bind, showLoading, hideLoading,
    setOverlay, log.
  rewrite Hov. unfold present in *. cbn [elements] in *. rewrite Hov.
  reflexivity.
Qed.

Lemma load_fails_without_overlay_witness :
  loadInitialData FetchRejects bareKpiPage
  = Throw DomTypeError
      (mkPage (elements bareKpiPage) (overlayDisplay bareKpiPage)
         (animations bareKpiPage)
         (console bareKpiPage
          ++ [Error "Failed to load initial data:" DomTypeError])).
Proof. apply load_fails_without_overlay. reflexivity. Defined.

(** ** The count-up animation *)

Import Animation.

Lemma cube_expand (a : Q) : (a ^ 3 == a * a * a)%Q.
Proof. simpl. ring. Qed.


Lemma easeOutCubic_mono (p q : Q) :
  (p <= q)%Q -> (easeOutCubic p <= easeOutCubic q)%Q.
Proof.
  intros H. unfold easeOutCubic. rewrite !cube_expand.
  set (a := (1 - p)%Q). set (b := (1 - q)%Q).
  assert (Hba : (b <= a)%Q) by (unfold a, b; lra).
  assert (0 <= (a - b) * ((a + b * (1#2)) * (a + b * (1#2))
                          + (3#4) * (b * b)))%Q.
  { apply Qmult_le_0_compat; [lra|nra]. }
  nra.
Qed.


Lemma progressOf_mono (duration e1 e2 : Q) :
  (0 < duration)%Q -> (e1 <= e2)%Q ->
  (progressOf duration e1 <= progressOf duration e2)%Q.
Proof.
  intros Hd He. unfold progressOf. apply Q.min_le_compat_r.
  unfold Qdiv. apply Qmult_le_compat_r; [assumption|].
  apply Qinv_le_0_compat. lra.
Qed.





(** X11. The figure shown by a count-up never goes back: a later frame
    shows a value at least as large as an earlier one. *)
Theorem animation_is_monotone (start end_ : Z) (duration e1 e2 : Q) :
  (start <= end_)%Z -> (0 < duration)%Q -> (e1 <= e2)%Q ->
  (currentValue start end_ duration e1
   <= currentValue start end_ duration e2)%Z.
Proof.
  intros Hse Hd He. unfold currentValue. cbv zeta.
  apply Qfloor_resp_le.
  assert (Hdiff : (0 <= inject_Z (end_ - start))%Q).
  { change 0%Q with (inject_Z 0). rewrite <- Zle_Qle. lia. }
  pose proof (easeOutCubic_mono _ _ (progressOf_mono duration e1 e2 Hd He)).
  nra.
Qed.

Lemma animation_is_monotone_witness :
  (currentValue 0 1847 2000 500 <= currentValue 0 1847 2000 1500)%Z.
Proof. apply animation_is_monotone; [lia|lra|lra]. Defined.

(* ===================================================================== *)
(** * The debounce and throttle helpers                                   *)
(* ===================================================================== *)

Import Utils.

Section Debounce.

Context {A : Type}.
Implicit Types d : Debounced A.

Lemma clearTimeout_inv d :
  debounceInv d -> clearTimeout (timeout d) (pending d) = [].
Proof.
  intros [Hp|(h & a & Hp & Ht)]; rewrite Hp.
  - destruct (timeout d); reflexivity.
  - rewrite Ht. simpl. now rewrite Nat.eqb_refl.
Qed.

Lemma executedFunction_state (args : A) d :
  debounceInv d ->
  timeout (executedFunction args d) = Some (nextHandle d)
  /\ pending (executedFunction args d) = [(nextHandle d, args)]
  /\ invoked (executedFunction args d) = invoked d
  /\ debounceInv (executedFunction args d).
Proof.
  intros HI. unfold executedFunction. rewrite (clearTimeout_inv d HI).
  cbn. repeat split. right. now exists (nextHandle d), args.
Qed.

Lemma later_inv (h : nat) d : debounceInv d -> debounceInv (later h d).
Proof.
  intros HI. unfold later.
  destruct (find _ (pending d)) as [[h0 a0]|] eqn:Hf; [|exact HI].
  left. cbn [pending].
  destruct HI as [Hp|(h1 & a1 & Hp & Ht)]; rewrite Hp in *.
  - discriminate Hf.
  - rewrite Ht. simpl in *.
    destruct (Nat.eqb h1 h) eqn:E; [|discriminate Hf].
    simpl. reflexivity.
Qed.

Lemma debounceStep_inv d (e : debounceEvent A) :
  debounceInv d -> debounceInv (debounceStep d e).
Proof.
  intros HI. destruct e; simpl.
  - now apply executedFunction_state.
  - now apply later_inv.
Qed.

Lemma debounceReachable_inv d : debounceReachable d -> debounceInv d.
Proof.
  intros [evs ->]. induction evs as [|e evs IH] using rev_ind.
  - now left.
  - unfold debounceRun in *. rewrite fold_left_app. simpl.
    now apply debounceStep_inv.
Qed.

Lemma calls_keep_invoked (cs : list A) d :
  debounceInv d ->
  debounceInv (debounceRun (map DCall cs) d)
  /\ invoked (debounceRun (map DCall cs) d) = invoked d.
Proof.
  revert d. induction cs as [|c cs IH]; intros d HI; [now split|].
  destruct (executedFunction_state c d HI) as (_ & _ & Hi & HI').
  destruct (IH _ HI') as [H1 H2]. simpl. split; [exact H1|congruence].
Qed.

Lemma calls_snoc (cs : list A) (a : A) d :
  debounceRun (map DCall (cs ++ [a])) d
  = executedFunction a (debounceRun (map DCall cs) d).
Proof.
  unfold debounceRun. rewrite map_app, fold_left_app. reflexivity.
Qed.

(** X12. A burst of calls to a debounced function does not run the
    function; when the burst is over exactly one timeout is pending, the
    one of the last call, and when it comes due the function runs once,
    with the arguments of the last call.  The timeouts of the earlier
    calls have been cancelled: their coming due changes nothing. *)
Theorem debounce_runs_last_call_once d (cs : list A) (a : A) :
  debounceReachable d ->
  exists h,
    timeout (debounceRun (map DCall (cs ++ [a])) d) = Some h
    /\ pending (debounceRun (map DCall (cs ++ [a])) d) = [(h, a)]
    /\ invoked (debounceRun (map DCall (cs ++ [a])) d) = invoked d
    /\ invoked (later h (debounceRun (map DCall (cs ++ [a])) d))
       = invoked d ++ [a]
    /\ pending (later h (debounceRun (map DCall (cs ++ [a])) d)) = []
    /\ forall h', h' <> h ->
         later h' (debounceRun (map DCall (cs ++ [a])) d)
         = debounceRun (map DCall (cs ++ [a])) d.
Proof.
  intros Hr. pose proof (debounceReachable_inv d Hr) as HI.
  destruct (calls_keep_invoked cs d HI) as [HI1 Hinv1].
  rewrite calls_snoc.
  set (d1 := debounceRun (map DCall cs) d) in *.
  destruct (executedFunction_state a d1 HI1) as (Ht & Hp & Hi & _).
  set (d2 := executedFunction a d1) in *.
  exists (nextHandle d1). unfold later. rewrite Hp, Ht, Hi, Hinv1.
  cbn [find fst filter clearTimeout negb invoked pending].
  rewrite Nat.eqb_refl.
  cbn [find fst filter clearTimeout negb invoked pending].
  repeat split; auto.
  intros h' Hne. apply Nat.eqb_neq in Hne.
  rewrite Nat.eqb_sym, Hne. reflexivity.
Qed.

End Debounce.

Lemma debounce_runs_last_call_once_witness :
  exists h,
    timeout (debounceRun (map DCall ([1; 2] ++ [3])) debounce) = Some h
    /\ pending (debounceRun (map DCall ([1; 2] ++ [3])) debounce) = [(h, 3)]
    /\ invoked (debounceRun (map DCall ([1; 2] ++ [3])) debounce)
       = invoked debounce
    /\ invoked (later h (debounceRun (map DCall ([1; 2] ++ [3])) debounce))
       = invoked debounce ++ [3]
    /\ pending (later h (debounceRun (map DCall ([1; 2] ++ [3])) debounce))
       = []
    /\ forall h', h' <> h ->
         later h' (debounceRun (map DCall ([1; 2] ++ [3])) debounce)
         = debounceRun (map DCall ([1; 2] ++ [3])) debounce.
Proof.
  apply (debounce_runs_last_call_once debounce [1; 2] 3).
  exists []. reflexivity.
Defined.

Section Throttle.

Context {A : Type}.
Implicit Types t : Throttled A.

Lemma throttleStep_inv t (e : throttleEvent A) :
  throttleInv t -> throttleInv (throttleStep t e).
Proof.
  unfold throttleInv.
  destruct t as [[|] r ap]; destruct e as [args [|]|]; simpl;
    intros ->; reflexivity.
Qed.

Lemma throttleReachable_inv t : throttleReachable t -> throttleInv t.
Proof.
  intros [evs ->]. induction evs as [|e evs IH] using rev_ind.
  - reflexivity.
  - unfold throttleRun in *. rewrite fold_left_app. simpl.
    now apply throttleStep_inv.
Qed.

Lemma throttled_calls_dropped (cs : list (A * ending)) t :
  inThrottle t = true -> throttleRun (callsOf cs) t = t.
Proof.
  intros H. induction cs as [|c cs IH]; [reflexivity|].
  simpl. unfold throttled. now rewrite H.
Qed.

Lemma throwing_calls_pass (xs : list A) t :
  inThrottle t = false ->
  throttleRun (callsOf (throwing xs)) t
  = mkThrottled false (resets t) (applied t ++ throwing xs).
Proof.
  revert t. induction xs as [|x xs IH]; intros t H.
  - simpl. rewrite app_nil_r. destruct t; simpl in *. now subst.
  - change (throttleRun (callsOf (throwing (x :: xs))) t)
      with (throttleRun (callsOf (throwing xs))
              (stateOf (throttled x Throws t))).
    unfold throttled. rewrite H. cbn [stateOf].
    rewrite IH by reflexivity. cbn [resets applied].
    now rewrite <- app_assoc.
Qed.

Lemma throttleRun_app (e1 e2 : list (throttleEvent A)) t :
  throttleRun (e1 ++ e2) t = throttleRun e2 (throttleRun e1 t).
Proof. unfold throttleRun. apply fold_left_app. Qed.

(** X13. A throttled function runs on the leading edge only, the edge
    being the first call whose function returns: of a burst of calls made
    while the throttle is open, the calls whose function throws are all
    passed on and leave the throttle open; the first call whose function
    returns closes it, and every later call of the burst is dropped
    without the function being called.  When the timeout then comes due
    the throttle reopens, but none of the dropped calls is replayed. *)
Theorem throttle_passes_first_call_only t (failed : list A) (a : A)
  (rest : list (A * ending)) :
  throttleReachable t -> inThrottle t = false ->
  applied (throttleRun (callsOf (throwing failed ++ (a, Returns) :: rest)) t)
  = applied t ++ throwing failed ++ [(a, Returns)]
  /\ inThrottle
       (throttleRun (callsOf (throwing failed ++ (a, Returns) :: rest)) t)
     = true
  /\ applied
       (release
          (throttleRun (callsOf (throwing failed ++ (a, Returns) :: rest)) t))
     = applied t ++ throwing failed ++ [(a, Returns)]
  /\ inThrottle
       (release
          (throttleRun (callsOf (throwing failed ++ (a, Returns) :: rest)) t))
     = false
  /\ resets
       (release
          (throttleRun (callsOf (throwing failed ++ (a, Returns) :: rest)) t))
     = 0.
Proof.
  intros Hr Hopen. pose proof (throttleReachable_inv t Hr) as HI.
  unfold throttleInv in HI. rewrite Hopen in HI.
  unfold callsOf at 1 2 3 4 5. rewrite map_app. cbn [map fst snd].
  fold (callsOf (throwing failed)). fold (callsOf rest).
  rewrite throttleRun_app, throwing_calls_pass by assumption.
  change (throttleRun (TCall a Returns :: callsOf rest) ?u)
    with (throttleRun (callsOf rest) (stateOf (throttled a Returns u))).
  unfold throttled. cbn [inThrottle stateOf resets applied].
  rewrite throttled_calls_dropped by reflexivity.
  unfold release. cbn [inThrottle resets applied]. rewrite HI.
  rewrite <- app_assoc. repeat split; reflexivity.
Qed.

Lemma throttle_rate_aux (evs : list (throttleEvent A)) t :
  throttleInv t ->
  List.length (filter returned (applied (throttleRun evs t)))
  <= List.length (filter returned (applied t)) + timeoutsOf evs
     + (if inThrottle t then 0 else 1)
  /\ List.length (applied (throttleRun evs t))
     <= List.length (applied t) + timeoutsOf evs + throwsOf evs
        + (if inThrottle t then 0 else 1).
Proof.
  revert t. induction evs as [|e evs IH]; intros t HI.
  - simpl. lia.
  - change (throttleRun (e :: evs) t) with (throttleRun evs (throttleStep t e)).
    specialize (IH _ (throttleStep_inv t e HI)).
    unfold throttleInv in HI.
    destruct t as [[|] r ap]; destruct e as [args [|]|]; cbn in HI; subst r;
      unfold timeoutsOf, throwsOf in *;
      cbn [throttleStep throttled release stateOf inThrottle resets applied
           filter List.length] in *;
      rewrite ?filter_app, ?length_app in *;
      cbn [filter returned snd List.length] in *; lia.
Qed.

(** X14. Throttling bounds the rate of the calls that return: however
    calls and timeouts interleave, the function has returned at most once
    more than the number of timeouts that came due, and it has been
    called at most that often plus once per call that threw.  Calls that
    throw are not limited at all: if the function throws on every call,
    every call of a burst reaches it. *)
Theorem throttle_bounds_rate (evs : list (throttleEvent A)) (xs : list A) :
  List.length (filter returned (applied (throttleRun evs (@throttle A))))
  <= timeoutsOf evs + 1
  /\ List.length (applied (throttleRun evs (@throttle A)))
     <= timeoutsOf evs + 1 + throwsOf evs
  /\ applied (throttleRun (callsOf (throwing xs)) (@throttle A))
     = throwing xs.
Proof.
  pose proof (throttle_rate_aux evs (@throttle A) eq_refl) as [H1 H2].
  simpl in H1, H2. split; [lia|]. split; [lia|].
  now rewrite throwing_calls_pass.
Qed.

End Throttle.

Lemma throttle_passes_first_call_only_witness :
  applied (throttleRun (callsOf (throwing [1] ++ (2, Returns)
                                   :: [(3, Throws); (4, Returns)]))
             throttle)
  = applied throttle ++ throwing [1] ++ [(2, Returns)]
  /\ inThrottle
       (throttleRun (callsOf (throwing [1] ++ (2, Returns)
                                :: [(3, Throws); (4, Returns)]))
          throttle)
     = true
  /\ applied
       (release
          (throttleRun (callsOf (throwing [1] ++ (2, Returns)
                                   :: [(3, Throws); (4, Returns)]))
             throttle))
     = applied throttle ++ throwing [1] ++ [(2, Returns)]
  /\ inThrottle
       (release
          (throttleRun (callsOf (throwing [1] ++ (2, Returns)
                                   :: [(3, Throws); (4, Returns)]))
             throttle))
     = false
  /\ resets
       (release
          (throttleRun (callsOf (throwing [1] ++ (2, Returns)
                                   :: [(3, Throws); (4, Returns)]))
             throttle))
     = 0.
Proof.
  apply (throttle_passes_first_call_only throttle [1] 2
           [(3, Throws); (4, Returns)]).
  - exists []. reflexivity.
  - reflexivity.
Defined.

(* ===================================================================== *)
(** * More on the oceanographic module                                    *)
(* ===================================================================== *)

Import OceanMore.

(** ** Generating the history *)

(** The loop builds, array by array, the image of [0 .. hours-1]. *)
Lemma generate_maps (E : Engine) (now : Z) (hours : nat) (rnd : nat -> Q)
  (d : nat) :
  forall n,
    fold_left (loopBody E now hours rnd) (seq 0 n)
              (mkGenerated [] [] [] [] [] d)
    = mkGenerated
        (map (fun i => temperatureSample E (timestampOf now hours i) i
                         (rnd (d + 9 * i)))
             (seq 0 n))
        (map (fun i => salinitySample E (timestampOf now hours i) i
                         (rnd (d + 9 * i + 1)) (rnd (d + 9 * i + 2)))
             (seq 0 n))
        (map (fun i => chlorophyllSample E (timestampOf now hours i) i
                         (rnd (d + 9 * i + 3)) (rnd (d + 9 * i + 4)))
             (seq 0 n))
        (map (fun i => phSample E (timestampOf now hours i) i
                         (rnd (d + 9 * i + 5)) (rnd (d + 9 * i + 6)))
             (seq 0 n))
        (map (fun i => oxygenSample E (timestampOf now hours i) i
                         (rnd (d + 9 * i + 7)) (rnd (d + 9 * i + 8)))
             (seq 0 n))
        (d + 9 * n).
Proof.
  induction n as [|n IH].
  - simpl. now rewrite Nat.add_0_r.
  - rewrite seq_S, fold_left_app, IH. cbn [fold_left Nat.add].
    unfold loopBody.
    cbn [g_temperature g_salinity g_chlorophyll g_ph g_oxygen g_draws].
    rewrite !map_app. cbn [map]. f_equal. lia.
Qed.

Lemma hours_values (range : string) :
  hours range = 24 \/ hours range = 168 \/ hours range = 720.
Proof.
  unfold hours. destruct (String.eqb range "24h"); auto.
  destruct (String.eqb range "7d"); auto.
Qed.

Lemma load_timestamps (E : Engine) (now : Z) (range : string)
  (rnd : nat -> Q) (d : nat) :
  Forall
    (fun kd =>
       map timestamp (snd kd)
       = map (fun i => (now - (Z.of_nat (hours range) - Z.of_nat i)
                              * 3600000)%Z)
             (seq 0 (hours range)))
    (fst (loadHistoricalData E now range rnd d)).
Proof.
  unfold loadHistoricalData, generate. rewrite generate_maps.
  cbn [fst g_temperature g_salinity g_chlorophyll g_ph g_oxygen].
  repeat constructor; cbn [snd]; rewrite map_map; apply map_ext;
    intros i; cbn [timestamp temperatureSample salinitySample
                   chlorophyllSample phSample oxygenSample];
    unfold timestampOf; lia.
Qed.

(** X15. [loadHistoricalData] always produces the five arrays
    temperature, salinity, chlorophyll, ph, oxygen, in this order, each
    with exactly [hours] samples (24, 168 or 720, the last for any range
    other than ['24h'] and ['7d']); all five carry the same timestamps,
    one per hour, the last one hour before [now]; and it makes nine
    random draws per hour. *)
Theorem load_builds_hourly_grid (E : Engine) (now : Z) (range : string)
  (rnd : nat -> Q) (d : nat) :
  map fst (fst (loadHistoricalData E now range rnd d)) = parameters
  /\ Forall
       (fun kd =>
          List.length (snd kd) = hours range
          /\ map timestamp (snd kd)
             = map (fun i => (now - (Z.of_nat (hours range) - Z.of_nat i)
                                    * 3600000)%Z)
                   (seq 0 (hours range))
          /\ exists l, latest (snd kd) = Some l
                       /\ timestamp l = (now - 3600000)%Z)
       (fst (loadHistoricalData E now range rnd d))
  /\ snd (loadHistoricalData E now range rnd d) = d + 9 * hours range
  /\ (hours range = 24 \/ hours range = 168 \/ hours range = 720).
Proof.
  unfold loadHistoricalData, generate. rewrite generate_maps.
  cbn [fst snd g_temperature g_salinity g_chlorophyll g_ph g_oxygen g_draws
       map].
  split; [reflexivity|]. split; [|split; [reflexivity|apply hours_values]].
  assert (Hpos : 0 < hours range)
    by (destruct (hours_values range) as [->|[->| ->]]; lia).
  assert (Hgrid : forall f : nat -> Sample,
             (forall i, timestamp (f i) = timestampOf now (hours range) i) ->
             List.length (map f (seq 0 (hours range))) = hours range
             /\ map timestamp (map f (seq 0 (hours range)))
                = map (fun i => (now - (Z.of_nat (hours range) - Z.of_nat i)
                                       * 3600000)%Z)
                      (seq 0 (hours range))
             /\ exists l, latest (map f (seq 0 (hours range))) = Some l
                          /\ timestamp l = (now - 3600000)%Z).
  { intros f Hf. split; [now rewrite length_map, length_seq|]. split.
    - rewrite map_map. apply map_ext. intros i. rewrite Hf.
      unfold timestampOf. lia.
    - destruct (hours range) as [|n]; [lia|].
      rewrite seq_S, map_app. cbn [map]. rewrite latest_snoc.
      eexists. split; [reflexivity|]. rewrite Hf. unfold timestampOf. lia. }
  repeat constructor; cbn [snd]; apply Hgrid; reflexivity.
Qed.

Lemma within_map (lo hi plo phi : Q) (f : nat -> Sample) (l : list nat) :
  (forall i, (lo <= value (f i))%Q /\ (value (f i) <= hi)%Q
             /\ (plo <= predicted (f i))%Q /\ (predicted (f i) <= phi)%Q) ->
  within lo hi plo phi (map f l).
Proof.
  intros H. unfold within. rewrite Forall_forall.
  intros s Hs. apply in_map_iff in Hs as (i & <- & _). apply H.
Qed.

(** X16. With a sine that stays in [[-1, 1]] and random draws in
    [[0, 1)], every generated sample lies in a fixed band around its
    base value: temperature in [[24.6, 32.4]], salinity in
    [[33.55, 34.85]], chlorophyll in [[0.5, 3.7]], pH in [[7.9, 8.3]] and
    dissolved oxygen in [[5.8, 7.8]], each prediction in a slightly
    narrower band.  In particular the chlorophyll floor of 0.1 is never
    reached, and salinity, chlorophyll, pH and oxygen stay within the
    ranges the source announces for them. *)
Theorem generated_values_stay_in_band (E : Engine) (now : Z) (range : string)
  (rnd : nat -> Q) (d : nat) :
  sineBounded E -> unitInterval rnd ->
  exists t sa c p o,
    fst (loadHistoricalData E now range rnd d)
    = [("temperature"%string, t); ("salinity"%string, sa);
       ("chlorophyll"%string, c); ("ph"%string, p); ("oxygen"%string, o)]
    /\ within 24.6 32.4 24.88 32.12 t
    /\ within 33.55 34.85 33.65 34.75 sa
    /\ within 0.5 3.7 0.7 3.5 c
    /\ within 7.9 8.3 7.925 8.275 p
    /\ within 5.8 7.8 5.9 7.7 o.
Proof.
  intros Hsin Hrnd.
  unfold loadHistoricalData, generate. rewrite generate_maps.
  cbn [fst g_temperature g_salinity g_chlorophyll g_ph g_oxygen].
  do 5 eexists. split; [reflexivity|].
  assert (Hw : forall i period,
             (-1 <= wave E i period)%Q /\ (wave E i period <= 1)%Q)
    by (intros; apply Hsin).
  repeat split; apply within_map; intros i.
  - destruct (Hw i 24%Q) as [A1 A2].
    destruct (Hw i (24 * 365)%Q) as [B1 B2].
    destruct (Hrnd (d + 9 * i)) as [R1 R2].
    unfold temperatureSample. cbn [value predicted]. repeat split; lra.
  - destruct (Hw i (24 * 7)%Q) as [A1 A2].
    destruct (Hrnd (d + 9 * i + 1)) as [R1 R2].
    destruct (Hrnd (d + 9 * i + 2)) as [S1 S2].
    unfold salinitySample. cbn [value predicted]. repeat split; lra.
  - destruct (Hw i (24 * 30)%Q) as [A1 A2].
    destruct (Hrnd (d + 9 * i + 3)) as [R1 R2].
    destruct (Hrnd (d + 9 * i + 4)) as [S1 S2].
    unfold chlorophyllSample. cbn [value predicted].
    repeat split;
      try (eapply Qle_trans; [|apply Q.le_max_r]; lra);
      apply Q.max_lub; lra.
  - destruct (Hw i (24 * 14)%Q) as [A1 A2].
    destruct (Hrnd (d + 9 * i + 5)) as [R1 R2].
    destruct (Hrnd (d + 9 * i + 6)) as [S1 S2].
    unfold phSample. cbn [value predicted]. repeat split; lra.
  - destruct (Hw i 24%Q) as [A1 A2].
    destruct (Hrnd (d + 9 * i + 7)) as [R1 R2].
    destruct (Hrnd (d + 9 * i + 8)) as [S1 S2].
    unfold oxygenSample. cbn [value predicted]. repeat split; lra.
Qed.

Lemma generated_values_stay_in_band_witness :
  exists t sa c p o,
    fst (loadHistoricalData flatEngine 0 "24h" halves 0)
    = [("temperature"%string, t); ("salinity"%string, sa);
       ("chlorophyll"%string, c); ("ph"%string, p); ("oxygen"%string, o)]
    /\ within 24.6 32.4 24.88 32.12 t
    /\ within 33.55 34.85 33.65 34.75 sa
    /\ within 0.5 3.7 0.7 3.5 c
    /\ within 7.9 8.3 7.925 8.275 p
    /\ within 5.8 7.8 5.9 7.7 o.
Proof.
  apply generated_values_stay_in_band.
  - intros x. unfold flatEngine. cbn [Math_sin]. split; lra.
  - intros n. unfold halves. split; lra.
Defined.

(** ** One pass of the live update, array by array *)

Lemma pass_structure (now : Z) (rnd : nat -> Q) (hd : Store) :
  forall d,
    Forall (fun kd => snd kd <> []) hd ->
    exists hd',
      updateCurrentValues now rnd d hd = Done hd' (d + 2 * List.length hd)
      /\ Forall2
           (fun kd kd' =>
              fst kd' = fst kd
              /\ exists l j,
                   latest (snd kd) = Some l
                   /\ snd kd'
                      = appendCapped retentionCap (snd kd)
                          (mkSample now
                             (value l + (rnd j - 0.5) * liveNoiseAmplitude)%Q
                             (value l + (rnd j - 0.5) * liveNoiseAmplitude
                              + (rnd (S j) - 0.5) * predictedNoiseAmplitude)%Q))
           hd hd'.
Proof.
  induction hd as [|[k data] rest IH]; intros d Hall.
  - exists []. simpl. rewrite Nat.add_0_r. split; constructor.
  - inversion Hall as [|? ? Hne Hrest]; subst. cbn [snd] in Hne.
    destruct (latest_nonempty data Hne) as [l Hl].
    destruct (IH (S (S d)) Hrest) as (rest' & Hrun & Hrel).
    cbn [updateCurrentValues List.length].
    rewrite (updateParam_appends now _ _ data l Hl), Hrun.
    eexists. split; [f_equal; lia|].
    constructor; [|exact Hrel]. cbn [fst snd]. split; [reflexivity|].
    exists l, d. split; [exact Hl|reflexivity].
Qed.

(** X17. One pass of the live update over a store of non-empty arrays
    within the cap keeps the keys and their order and changes each array
    only at its ends: the new array is the old one with one sample
    appended, cut to its last 1000 entries.  The appended sample carries
    the pass's [now], and with draws in [[0, 1)] its prediction is within
    0.05 of its value. *)
Theorem pass_changes_only_the_ends (now : Z) (rnd : nat -> Q) (d : nat)
  (hd : Store) :
  unitInterval rnd ->
  Forall (fun kd => snd kd <> [] /\ List.length (snd kd) <= retentionCap) hd ->
  exists hd',
    updateCurrentValues now rnd d hd = Done hd' (d + 2 * List.length hd)
    /\ map fst hd' = map fst hd
    /\ Forall2
         (fun kd kd' =>
            exists s,
              snd kd' = lastn retentionCap (snd kd ++ [s])
              /\ timestamp s = now
              /\ (- (0.05) <= predicted s - value s)%Q
              /\ (predicted s - value s < 0.05)%Q)
         hd hd'.
Proof.
  intros Hrnd Hall.
  assert (Hne : Forall (fun kd => snd kd <> []) hd)
    by (eapply Forall_impl; [|exact Hall]; intros kd [H _]; exact H).
  destruct (pass_structure now rnd hd d Hne) as (hd' & Hrun & Hrel).
  exists hd'. split; [exact Hrun|].
  clear Hrun Hne. induction Hrel as [|kd kd' hd hd' [Hk (l & j & Hl & Hd)] Hrel IH].
  - split; constructor.
  - inversion Hall as [|? ? [_ Hlen] Hrest]; subst.
    destruct (IH Hrest) as [IHk IHr].
    split; [cbn [map]; now rewrite Hk, IHk|].
    constructor; [|exact IHr].
    eexists. split; [rewrite Hd; now apply appendCapped_lastn|].
    destruct (Hrnd (S j)) as [R1 R2].
    cbn [timestamp value predicted]. unfold predictedNoiseAmplitude.
    repeat split; lra.
Qed.

Lemma pass_changes_only_the_ends_witness :
  exists hd',
    updateCurrentValues 7 halves 0 smallStore
    = Done hd' (0 + 2 * List.length smallStore)
    /\ map fst hd' = map fst smallStore
    /\ Forall2
         (fun kd kd' =>
            exists s,
              snd kd' = lastn retentionCap (snd kd ++ [s])
              /\ timestamp s = 7%Z
              /\ (- (0.05) <= predicted s - value s)%Q
              /\ (predicted s - value s < 0.05)%Q)
         smallStore hd'.
Proof.
  apply (pass_changes_only_the_ends 7 halves 0 smallStore).
  - intros n. unfold halves. split; lra.
  - unfold smallStore, parameters, retentionCap. simpl.
    repeat constructor; try discriminate; lia.
Defined.

(** ** The life of an instance *)

Lemma load_shaped (E : Engine) (now : Z) (range : string) (rnd : nat -> Q)
  (d : nat) :
  shaped (hours range) (fst (loadHistoricalData E now range rnd d)).
Proof.
  unfold shaped, loadHistoricalData, generate. rewrite generate_maps.
  cbn [fst g_temperature g_salinity g_chlorophyll g_ph g_oxygen map].
  split; [reflexivity|].
  repeat constructor; cbn [snd]; now rewrite length_map, length_seq.
Qed.

Lemma length_appendCapped_min (cap : nat) (data : list Sample) (s : Sample) :
  List.length data <= cap ->
  List.length (appendCapped cap data s) = Nat.min (S (List.length data)) cap.
Proof.
  intros H. rewrite appendCapped_lastn, length_lastn, length_app by assumption.
  cbn [List.length]. lia.
Qed.

Lemma live_shaped (rnd : nat -> Q) (now : Z) (m : Instance) (n : nat) :
  1 <= n <= retentionCap ->
  shaped n (historicalData m) ->
  shaped (Nat.min (S n) retentionCap) (historicalData (liveUpdate rnd now m))
  /\ draws (liveUpdate rnd now m) = draws m + 10
  /\ forecastRange (liveUpdate rnd now m) = forecastRange m
  /\ exists hd',
       updateCurrentValues now rnd (draws m) (historicalData m)
       = Done hd' (draws m + 10).
Proof.
  intros Hn [Hk Hlen].
  assert (Hne : Forall (fun kd => snd kd <> []) (historicalData m)).
  { eapply Forall_impl; [|exact Hlen]. intros kd H E. cbv beta in H.
    rewrite E in H. simpl in H. lia. }
  destruct (pass_structure now rnd _ (draws m) Hne) as (hd' & Hrun & Hrel).
  assert (H5 : List.length (historicalData m) = 5).
  { rewrite <- (length_map fst), Hk. reflexivity. }
  rewrite H5 in Hrun. change (2 * 5) with 10 in Hrun.
  unfold liveUpdate. rewrite Hrun.
  cbn [historicalData draws forecastRange].
  split; [|split; [reflexivity|split; [reflexivity|now exists hd']]].
  unfold shaped. rewrite <- Hk. clear Hrun Hne H5 Hk.
  induction Hrel as [|kd kd' hd hd' [Hkey (l & j & Hl & Hd)] Hrel IH].
  - split; constructor.
  - inversion Hlen as [|? ? Hlen1 Hrest]; subst.
    destruct (IH Hrest) as [IHk IHl].
    split; [cbn [map]; now rewrite Hkey, IHk|].
    constructor; [|exact IHl].
    rewrite Hd, length_appendCapped_min by lia. reflexivity.
Qed.

Lemma updateCharts_shaped (E : Engine) (rnd : nat -> Q) (now : Z)
  (m : Instance) :
  shaped (hours (forecastRange m))
         (historicalData (updateCharts E rnd now m))
  /\ forecastRange (updateCharts E rnd now m) = forecastRange m.
Proof.
  unfold updateCharts.
  pose proof (load_shaped E now (forecastRange m) rnd (draws m)) as H.
  destruct (loadHistoricalData E now (forecastRange m) rnd (draws m))
    as [hd d]. cbn [fst historicalData forecastRange] in *. now split.
Qed.

Lemma hours_range (range : string) : 24 <= hours range <= retentionCap.
Proof.
  unfold retentionCap.
  destruct (hours_values range) as [->|[->| ->]]; lia.
Qed.

Lemma step_shaped (E : Engine) (rnd : nat -> Q) (m : Instance)
  (e : oceanEvent) :
  (exists n, 24 <= n <= retentionCap /\ shaped n (historicalData m)) ->
  exists n, 24 <= n <= retentionCap
            /\ shaped n (historicalData (oceanStep E rnd m e)).
Proof.
  intros (n & Hn & Hs). destruct e as [range now|now|now]; cbn [oceanStep].
  - eexists. split; [|apply updateCharts_shaped]. apply hours_range.
  - eexists. split; [|apply updateCharts_shaped]. apply hours_range.
  - exists (Nat.min (S n) retentionCap). split; [lia|].
    apply live_shaped; [lia|exact Hs].
Qed.

Lemma reachable_shaped (E : Engine) (rnd : nat -> Q) (m : Instance) :
  oceanReachable E rnd m ->
  exists n, 24 <= n <= retentionCap /\ shaped n (historicalData m).
Proof.
  intros (now & evs & ->). induction evs as [|e evs IH] using rev_ind.
  - exists (hours "7d"). split; [apply hours_range|].
    unfold oceanRun, construct. cbn [fold_left].
    pose proof (load_shaped E now "7d" rnd 0) as H.
    destruct (loadHistoricalData E now "7d" rnd 0) as [hd d]. exact H.
  - unfold oceanRun in *. rewrite fold_left_app. cbn [fold_left].
    now apply step_shaped.
Qed.

(** X18. Whatever ranges, parameters and stations are selected and
    however often the interval fires, an instance always holds exactly
    the five arrays, all of the same length, between 24 and 1000; hence
    the interval callback never hits an empty array: every pass
    completes, with ten random draws. *)
Theorem instance_arrays_stay_in_shape (E : Engine) (rnd : nat -> Q)
  (m : Instance) (now : Z) :
  oceanReachable E rnd m ->
  map fst (historicalData m) = parameters
  /\ (exists n, 24 <= n <= retentionCap
                /\ Forall (fun kd => List.length (snd kd) = n)
                          (historicalData m))
  /\ exists hd',
       updateCurrentValues now rnd (draws m) (historicalData m)
       = Done hd' (draws m + 10).
Proof.
  intros Hr. destruct (reachable_shaped E rnd m Hr) as (n & Hn & Hs).
  split; [apply Hs|]. split; [exists n; split; [exact Hn|apply Hs]|].
  apply (live_shaped rnd now m n); [lia|exact Hs].
Qed.

Lemma instance_arrays_stay_in_shape_witness :
  map fst (historicalData (construct flatEngine halves 0)) = parameters
  /\ (exists n, 24 <= n <= retentionCap
                /\ Forall (fun kd => List.length (snd kd) = n)
                          (historicalData (construct flatEngine halves 0)))
  /\ exists hd',
       updateCurrentValues 1 halves
         (draws (construct flatEngine halves 0))
         (historicalData (construct flatEngine halves 0))
       = Done hd' (draws (construct flatEngine halves 0) + 10).
Proof.
  apply (instance_arrays_stay_in_shape flatEngine halves
           (construct flatEngine halves 0) 1).
  exists 0%Z, []. reflexivity.
Defined.

Lemma intervals_shaped (E : Engine) (rnd : nat -> Q) (nows : list Z) :
  forall m n,
    1 <= n <= retentionCap ->
    shaped n (historicalData m) ->
    shaped (Nat.min (n + List.length nows) retentionCap)
           (historicalData (oceanRun E rnd (map Interval nows) m)).
Proof.
  induction nows as [|now nows IH]; intros m n Hn Hs.
  - simpl. replace (Nat.min (n + 0) retentionCap) with n by lia. exact Hs.
  - change (oceanRun E rnd (map Interval (now :: nows)) m)
      with (oceanRun E rnd (map Interval nows) (liveUpdate rnd now m)).
    destruct (live_shaped rnd now m n Hn Hs) as [Hs' _].
    assert (Hn' : 1 <= Nat.min (S n) retentionCap <= retentionCap) by lia.
    specialize (IH _ _ Hn' Hs').
    cbn [List.length].
    replace (Nat.min (n + S (List.length nows)) retentionCap)
      with (Nat.min (Nat.min (S n) retentionCap + List.length nows)
                    retentionCap) by lia.
    exact IH.
Qed.

(** X19. After a change of range, every array has the length of the new
    window, whatever it held before (samples appended by the interval
    are discarded by the reload); each later firing of the interval adds
    one sample to every array until the cap: after [k] firings all five
    arrays have length [min (hours + k) 1000]. *)
Theorem lengths_after_reload_and_intervals (E : Engine) (rnd : nat -> Q)
  (m : Instance) (range : string) (now : Z) (nows : list Z) :
  Forall
    (fun kd =>
       List.length (snd kd)
       = Nat.min (hours range + List.length nows) retentionCap)
    (historicalData
       (oceanRun E rnd (RangeChanged range now :: map Interval nows) m))
  /\ Forall (fun kd => List.length (snd kd) = hours range)
            (historicalData (oceanStep E rnd m (RangeChanged range now))).
Proof.
  pose proof (updateCharts_shaped E rnd now
                (mkInstance range (historicalData m) (draws m))) as [Hs _].
  cbn [forecastRange] in Hs. split; [|apply Hs].
  change (oceanRun E rnd (RangeChanged range now :: map Interval nows) m)
    with (oceanRun E rnd (map Interval nows)
            (oceanStep E rnd m (RangeChanged range now))).
  apply intervals_shaped; [|exact Hs].
  pose proof (hours_range range). lia.
Qed.

(** ** An empty array stops the pass midway *)

(** X20. If an array of the store is empty, the pass throws when it
    reaches it: the arrays before it have already received their sample
    (two draws each), the empty array and everything after it are
    untouched. *)
Theorem empty_array_aborts_pass (now : Z) (rnd : nat -> Q) (pre : Store)
  (k : string) (post : Store) :
  forall d,
    Forall (fun kd => snd kd <> []) pre ->
    exists pre',
      updateCurrentValues now rnd d (pre ++ (k, []) :: post)
      = TypeError (pre' ++ (k, []) :: post) (d + 2 * List.length pre)
      /\ updateCurrentValues now rnd d pre
         = Done pre' (d + 2 * List.length pre).
Proof.
  induction pre as [|[key data] pre IH]; intros d Hall.
  - exists []. simpl. rewrite Nat.add_0_r. split; reflexivity.
  - inversion Hall as [|? ? Hne Hrest]; subst. cbn [snd] in Hne.
    destruct (latest_nonempty data Hne) as [l Hl].
    destruct (IH (S (S d)) Hrest) as (pre' & Hrun & Hpre).
    cbn [app updateCurrentValues List.length].
    rewrite (updateParam_appends now _ _ data l Hl), Hrun, Hpre.
    eexists (_ :: pre'). split; cbn [app]; f_equal; lia.
Qed.

Lemma empty_array_aborts_pass_witness :
  exists pre',
    updateCurrentValues 7 halves 0
      ([("temperature"%string, ramp 3)]
       ++ ("salinity"%string, []) :: [("ph"%string, ramp 2)])
    = TypeError (pre' ++ ("salinity"%string, []) :: [("ph"%string, ramp 2)])
        (0 + 2 * List.length [("temperature"%string, ramp 3)])
    /\ updateCurrentValues 7 halves 0 [("temperature"%string, ramp 3)]
       = Done pre' (0 + 2 * List.length [("temperature"%string, ramp 3)]).
Proof.
  apply (empty_array_aborts_pass 7 halves [("temperature"%string, ramp 3)]
           "salinity" [("ph"%string, ramp 2)] 0).
  repeat constructor. discriminate.
Defined.

(** ** Chronological order *)

Lemma sorted_snoc (l : list Z) (x : Z) :
  StronglySorted Z.le l -> Forall (fun y => (y <= x)%Z) l ->
  StronglySorted Z.le (l ++ [x]).
Proof.
  induction l as [|a l IH]; intros Hs Hall; simpl.
  - repeat constructor.
  - apply StronglySorted_inv in Hs as [Hs Ha].
    inversion Hall as [|? ? Hax Hrest]; subst.
    constructor; [now apply IH|].
    apply Forall_app. split; [exact Ha|now constructor].
Qed.

Lemma sorted_below_last (l : list Z) (x : Z) :
  StronglySorted Z.le (l ++ [x]) -> Forall (fun y => (y <= x)%Z) l.
Proof.
  induction l as [|a l IH]; intros Hs; [constructor|].
  simpl in Hs. apply StronglySorted_inv in Hs as [Hs Ha].
  constructor; [|now apply IH].
  apply Forall_app in Ha as [_ Hx]. now inversion Hx.
Qed.

Lemma sorted_tl (l : list Z) :
  StronglySorted Z.le l -> StronglySorted Z.le (tl l).
Proof.
  destruct l as [|a l]; intros Hs; [exact Hs|].
  now apply StronglySorted_inv in Hs as [Hs _].
Qed.

Lemma appendCapped_chronological (cap : nat) (data : list Sample)
  (l s : Sample) :
  chronological data -> latest data = Some l ->
  (timestamp l <= timestamp s)%Z ->
  chronological (appendCapped cap data s).
Proof.
  unfold chronological. intros Hs Hl Hle.
  assert (Hall : StronglySorted Z.le (map timestamp (data ++ [s]))).
  { rewrite map_app. cbn [map]. apply sorted_snoc; [exact Hs|].
    destruct data as [|a data] using rev_ind; [constructor|].
    rewrite latest_snoc in Hl. injection Hl as ->.
    rewrite map_app in *. cbn [map] in *.
    apply Forall_app. split.
    - eapply Forall_impl; [|apply (sorted_below_last _ _ Hs)].
      intros y Hy. cbv beta in Hy. lia.
    - repeat constructor. exact Hle. }
  unfold appendCapped.
  destruct (Nat.ltb cap (List.length (data ++ [s]))); [|exact Hall].
  destruct (data ++ [s]) as [|a rest]; [exact Hall|].
  cbn [tl map] in *. now apply StronglySorted_inv in Hall as [Hall _].
Qed.

(** X21. The generated arrays are in chronological order, and the live
    update keeps an array in chronological order whenever the clock has
    not gone back since the array's latest sample: the new sample is
    stamped [now] and goes to the end, and the cap only removes from the
    front. *)
Theorem arrays_stay_chronological (E : Engine) (now0 : Z) (range : string)
  (rnd : nat -> Q) (d : nat) (now : Z) (r1 r2 : Q) (data : list Sample)
  (l : Sample) :
  chronological data -> latest data = Some l -> (timestamp l <= now)%Z ->
  Forall (fun kd => chronological (snd kd))
         (fst (loadHistoricalData E now0 range rnd d))
  /\ exists data',
       updateParam now r1 r2 data = Some data' /\ chronological data'.
Proof.
  intros Hs Hl Hle. split.
  - pose proof (load_timestamps E now0 range rnd d) as Hgrid.
    eapply Forall_impl; [|exact Hgrid].
    intros kd Hts. unfold chronological. rewrite Hts.
    generalize (hours range) at 2. intros n.
    induction n as [|n IH]; [constructor|].
    rewrite seq_S, map_app. cbn [map]. apply sorted_snoc; [exact IH|].
    rewrite Forall_forall. intros y Hy.
    apply in_map_iff in Hy as (i & <- & Hi). apply in_seq in Hi. lia.
  - rewrite (updateParam_appends now r1 r2 data l Hl).
    eexists. split; [reflexivity|].
    apply appendCapped_chronological with l; auto.
Qed.

Lemma arrays_stay_chronological_witness :
  Forall (fun kd => chronological (snd kd))
         (fst (loadHistoricalData flatEngine 0 "24h" halves 0))
  /\ exists data',
       updateParam 5 0.5 0.5 (ramp 3) = Some data' /\ chronological data'.
Proof.
  apply (arrays_stay_chronological flatEngine 0 "24h" halves 0 5 0.5 0.5
           (ramp 3) (sampleAt 2)).
  - unfold chronological. simpl. repeat constructor; lia.
  - reflexivity.
  - simpl. lia.
Defined.

(** ** The parameter card *)

Lemma trendClass_zero (c : Q) : (c == 0)%Q -> trendClass c = Stable.
Proof.
  intros Hc. unfold trendClass.
  assert (H1 : Qle_bool c 0.1 = true) by (apply Qle_bool_iff; lra).
  assert (H2 : Qle_bool (-0.1) c = true) by (apply Qle_bool_iff; lra).
  now rewrite H1, H2.
Qed.

Lemma changeOf_short (data : list Sample) (l : Sample) :
  latest data = Some l -> List.length data < 25 ->
  changeOf data = Some (value l - value l)%Q.
Proof.
  intros Hl Hlen. unfold changeOf, previousOf. rewrite Hl.
  apply Nat.ltb_lt in Hlen. now rewrite Hlen.
Qed.

(** X22. With fewer than 25 samples there is nothing to compare with:
    the 24-hour change is the latest value minus itself, and the trend is
    "stable", whatever the data; with no sample at all the card is left
    alone.  This is the situation right after loading the 24-hour
    window, for each of the five arrays. *)
Theorem short_history_shows_no_change (data : list Sample) (E : Engine)
  (now : Z) (rnd : nat -> Q) (d : nat) :
  data <> [] -> List.length data < 25 ->
  (exists l,
     latest data = Some l
     /\ changeOf data = Some (value l - value l)%Q
     /\ trendClass (value l - value l) = Stable)
  /\ changeOf [] = None
  /\ Forall
       (fun kd =>
          exists l,
            changeOf (snd kd) = Some (value l - value l)%Q
            /\ trendClass (value l - value l) = Stable)
       (fst (loadHistoricalData E now "24h" rnd d)).
Proof.
  intros Hne Hlen.
  assert (Hshort : forall dt, dt <> [] -> List.length dt < 25 ->
             exists l, latest dt = Some l
                       /\ changeOf dt = Some (value l - value l)%Q
                       /\ trendClass (value l - value l) = Stable).
  { intros dt Hd Hl. destruct (latest_nonempty dt Hd) as [l Hlat].
    exists l. split; [exact Hlat|]. split; [now apply changeOf_short|].
    apply trendClass_zero. ring. }
  split; [now apply Hshort|]. split; [reflexivity|].
  destruct (load_shaped E now "24h" rnd d) as [_ Hgrid].
  eapply Forall_impl; [|exact Hgrid].
  intros kd Hl. cbv beta in *.
  assert (H24 : hours "24h" = 24) by reflexivity.
  rewrite H24 in Hl.
  destruct (Hshort (snd kd)) as (l & _ & H1 & H2).
  - intros E0. rewrite E0 in Hl. discriminate Hl.
  - rewrite Hl. repeat constructor.
  - exists l. split; assumption.
Qed.

Lemma short_history_shows_no_change_witness :
  (exists l,
     latest (ramp 3) = Some l
     /\ changeOf (ramp 3) = Some (value l - value l)%Q
     /\ trendClass (value l - value l) = Stable)
  /\ changeOf [] = None
  /\ Forall
       (fun kd =>
          exists l,
            changeOf (snd kd) = Some (value l - value l)%Q
            /\ trendClass (value l - value l) = Stable)
       (fst (loadHistoricalData flatEngine 0 "24h" halves 0)).
Proof.
  apply (short_history_shows_no_change (ramp 3) flatEngine 0 halves 0).
  - discriminate.
  - simpl. lia.
Defined.

(** X23. With at least 25 samples the card compares the latest sample
    with the one 24 positions before it.  A comparison value of exactly
    0 counts as missing: the change is then 0 whatever the latest value
    is; otherwise the change is the difference of the two values. *)
Theorem change_compares_24_back (data : list Sample) :
  25 <= List.length data ->
  exists l p,
    latest data = Some l
    /\ nth_error data (List.length data - 1 - 24) = Some p
    /\ changeOf data
       = Some (value l - (if Qeq_bool (value p) 0 then value l else value p))%Q
    /\ ((value p == 0)%Q ->
        exists c, changeOf data = Some c /\ (c == 0)%Q)
    /\ (~ (value p == 0)%Q ->
        changeOf data = Some (value l - value p)%Q).
Proof.
  intros Hlen.
  assert (Hne : data <> []) by (intros ->; simpl in Hlen; lia).
  destruct (latest_nonempty data Hne) as [l Hl].
  destruct (nth_error data (List.length data - 25)) as [p|] eqn:Hp.
  2: { apply nth_error_None in Hp. lia. }
  exists l, p.
  assert (Hch : changeOf data
                = Some (value l - (if Qeq_bool (value p) 0
                                   then value l else value p))%Q).
  { unfold changeOf, previousOf. rewrite Hl.
    assert (Hge : Nat.ltb (List.length data) 25 = false)
      by (apply Nat.ltb_ge; lia).
    now rewrite Hge, Hp. }
  split; [exact Hl|]. split.
  { replace (List.length data - 1 - 24) with (List.length data - 25) by lia.
    exact Hp. }
  split; [exact Hch|]. split.
  - intros Hz. eexists. split; [exact Hch|].
    apply Qeq_bool_iff in Hz. rewrite Hz. ring.
  - intros Hnz. rewrite Hch.
    destruct (Qeq_bool (value p) 0) eqn:Hb; [|reflexivity].
    apply Qeq_bool_iff in Hb. contradiction.
Qed.

Lemma change_compares_24_back_witness :
  exists l p,
    latest (ramp 30) = Some l
    /\ nth_error (ramp 30) (List.length (ramp 30) - 1 - 24) = Some p
    /\ changeOf (ramp 30)
       = Some (value l - (if Qeq_bool (value p) 0 then value l else value p))%Q
    /\ ((value p == 0)%Q ->
        exists c, changeOf (ramp 30) = Some c /\ (c == 0)%Q)
    /\ (~ (value p == 0)%Q ->
        changeOf (ramp 30) = Some (value l - value p)%Q).
Proof.
  apply (change_compares_24_back (ramp 30)). simpl. lia.
Defined.

(** ** What the charts are given *)

(** X24. For a snapshot of 2 to 1000 samples the two datasets of the
    forecast chart have one point more than the snapshot in total, and
    they meet on one sample of which they show different fields: the
    historical dataset ends with its observed value, the forecast dataset
    begins with its predicted value. *)
Theorem forecast_chart_datasets (data : list Sample) :
  2 <= List.length data <= retentionCap ->
  exists pre s post,
    data = pre ++ s :: post
    /\ historicalDataset data = map value pre ++ [value s]
    /\ forecastDataset data = predicted s :: map predicted post
    /\ List.length (historicalDataset data)
       + List.length (forecastDataset data)
       = S (List.length data).
Proof.
  intros Hlen.
  destruct (overlap_at (splitPoint64 data) data
              (splitPoint64_bounds data Hlen)) as (pre & s & post & Hd & Hh & Hf).
  exists pre, s, post. unfold historicalDataset, forecastDataset.
  unfold historical64, forecast64. rewrite Hh, Hf, map_app. cbn [map].
  repeat split; auto.
  cbn [List.length]. rewrite length_app, !length_map.
  cbn [List.length]. rewrite Hd, length_app. cbn [List.length]. lia.
Qed.

Lemma forecast_chart_datasets_witness :
  exists pre s post,
    ramp 10 = pre ++ s :: post
    /\ historicalDataset (ramp 10) = map value pre ++ [value s]
    /\ forecastDataset (ramp 10) = predicted s :: map predicted post
    /\ List.length (historicalDataset (ramp 10))
       + List.length (forecastDataset (ramp 10))
       = S (List.length (ramp 10)).
Proof.
  apply (forecast_chart_datasets (ramp 10)).
  unfold retentionCap. simpl. lia.
Defined.

(** X25. A mini chart is given the observed values of the last 24
    samples, in order, or of all samples when there are fewer than 24;
    an empty array gives an empty chart. *)
Theorem mini_chart_shows_last_24 (data : list Sample) :
  recentData data = lastn 24 data
  /\ miniDataset data = map value (lastn 24 data)
  /\ List.length (miniDataset data) = Nat.min 24 (List.length data).
Proof.
  assert (H : recentData data = lastn 24 data).
  { unfold recentData, slice, relativeIndex, lastn.
    change (-24 <? 0)%Z with true. cbv iota.
    replace (Z.to_nat (Z.max (Z.of_nat (List.length data) + -24) 0))
      with (List.length data - 24) by lia.
    apply firstn_all2. rewrite length_skipn. lia. }
  split; [exact H|]. unfold miniDataset. rewrite H.
  split; [reflexivity|]. now rewrite length_map, length_lastn.
Qed.
